(** * notifier.py: change detection and the run of the notifier

    A shallow embedding of [src/notifier.py] and the properties of its
    change detection, its first run, its error paths and the snapshot it
    persists.

    Conventions of the embedding.
    - A Python [str] is the list of its code points, so that slicing
      ([sha[:12]]) and comparison ([sorted]) are exactly Python's.
    - A Python [set] is a [gset]; [sorted] is a merge sort for the
      code-point order, whose result is the unique sorted permutation.
    - What the script does to the outside world (console, HTTP requests,
      the snapshot file) is a trace of events; an exception is the left
      summand of the result. The process exits with the status of
      [sys.exit], with 1 on an exception nobody catches, with 0 otherwise.
    - Of the requests library: a request raises a [RequestException] when
      it fails in transport, [json()] raises a [ValueError] on a body that
      does not decode, [raise_for_status()] raises an [HTTPError] on a
      status from 400 to 599, and [ok] is false on those.
    - Bodies that parse are taken to have the shape the script reads: a
      listing is an array of objects with a string ["id"], a detail is an
      object whose ["sha"] and ["lastModified"] are strings, null or
      absent, and the snapshot file, when present, holds what an earlier
      [save_state] wrote. *)

From Stdlib Require Import Ascii String.
From stdpp Require Import base decidable option list sorting countable gmap.

Local Open Scope N_scope.
Local Open Scope list_scope.

(** ** Strings *)

Module Str.

Definition char := N.
Definition str := list char.

(** An ASCII literal of the source, as code points. *)
Definition lit (s : string) : str := map N_of_ascii (list_ascii_of_string s).
Arguments lit : simpl never.

(** ["\n"] *)
Definition nl : str := [10].

(** [a < b], [a <= b] on [str]: lexicographic on code points. *)
Fixpoint leb (a b : str) : bool :=
  match a, b with
  | [], _ => true
  | _ :: _, [] => false
  | x :: a', y :: b' =>
      if x <? y then true else if y <? x then false else leb a' b'
  end.

Definition le (a b : str) : Prop := leb a b = true.

#[global] Instance le_dec a b : Decision (le a b).
Proof. unfold le. apply _. Defined.

(** [str(n)] for a non-negative [int]. *)
Fixpoint digits (d : Decimal.uint) : str :=
  match d with
  | Decimal.Nil => []
  | Decimal.D0 d => 48 :: digits d
  | Decimal.D1 d => 49 :: digits d
  | Decimal.D2 d => 50 :: digits d
  | Decimal.D3 d => 51 :: digits d
  | Decimal.D4 d => 52 :: digits d
  | Decimal.D5 d => 53 :: digits d
  | Decimal.D6 d => 54 :: digits d
  | Decimal.D7 d => 55 :: digits d
  | Decimal.D8 d => 56 :: digits d
  | Decimal.D9 d => 57 :: digits d
  end.

Definition of_nat (n : nat) : str := digits (Nat.to_uint n).

(** [str(b)] for a [bool]. *)
Definition of_bool (b : bool) : str := if b then lit "True" else lit "False".

(** [sep.join(lines)] *)
Fixpoint join (sep : str) (lines : list str) : str :=
  match lines with
  | [] => []
  | [l] => l
  | l :: ls => l ++ sep ++ join sep ls
  end.

(** [s.startswith(p)] *)
Fixpoint startswith (p s : str) : bool :=
  match p, s with
  | [], _ => true
  | _ :: _, [] => false
  | x :: p', y :: s' => (x =? y) && startswith p' s'
  end.

(** Truth value of an optional string: [None] and [""] are false. *)
Definition truthy (o : option str) : bool :=
  match o with
  | Some (_ :: _) => true
  | _ => false
  end.

(** [sorted(xs)] for strings. *)
Definition sorted (xs : list str) : list str := merge_sort le xs.

Arguments of_nat : simpl never.
Arguments sorted : simpl never.

End Str.

Import Str.

(** ** Data model *)

(** The detail record of the watched space, as [fetch_space_detail]
    returns it and as the snapshot stores it. *)
Record Detail := mkDetail {
  sha : option str;
  lastModified : option str;
}.

(** The snapshot: [{**repos, "watched_space": ..., "checked_at": ...}].
    [watched_space] is read with [.get(.., {})], so it may be absent. *)
Record Snapshot := mkSnapshot {
  space_ids : list str;
  model_ids : list str;
  watched_space : option Detail;
  checked_at : str;
}.

(** A change: the tuple [(priority, message)]. *)
Definition Change : Type := str * str.

Definition HIGH : str := lit "HIGH".
Definition MEDIUM : str := lit "MEDIUM".

(** ** The differ *)

(** [state.get("watched_space", {}).get("sha")] *)
Definition get_sha (state : Snapshot) : option str :=
  match watched_space state with
  | Some d => sha d
  | None => None
  end.

(** The three kinds of entries of the change list. *)
Definition new_space_change (sid : str) : Change :=
  (HIGH, lit "New Space: " ++ sid).

Definition new_model_change (mid : str) : Change :=
  (MEDIUM, lit "New Model: " ++ mid).

Definition sha_change (new_sha : str) : Change :=
  (MEDIUM, lit "Puzzle space updated (sha: " ++ take 12 new_sha ++ lit ")").

(** [detect_changes], lines 58-77. *)
Definition detect_changes (old_state new_state : Snapshot) : list Change :=
  let changes := [] in
  let new_spaces : gset str :=
    list_to_set (space_ids new_state) ∖ list_to_set (space_ids old_state) in
  let changes := changes ++ (new_space_change <$> sorted (elements new_spaces)) in
  let new_models : gset str :=
    list_to_set (model_ids new_state) ∖ list_to_set (model_ids old_state) in
  let changes := changes ++ (new_model_change <$> sorted (elements new_models)) in
  let old_sha := get_sha old_state in
  let new_sha := get_sha new_state in
  if truthy old_sha && truthy new_sha then
    if bool_decide (old_sha ≠ new_sha) then
      changes ++ [sha_change (default [] new_sha)]
    else changes
  else changes.

(** ** The outside world *)

(** What an HTTP response offers to the script: [resp.status_code],
    [resp.reason], [resp.url], [resp.text], and [resp.json()], which is
    the decoded body or the message of the decoding error. *)
Record Response (A : Type) := mkResponse {
  status_code : nat;
  reason : str;
  url : str;
  text : str;
  json : str + A;
}.
Arguments mkResponse {A} _ _ _ _ _.
Arguments status_code {A} _.
Arguments reason {A} _.
Arguments url {A} _.
Arguments text {A} _.
Arguments json {A} _.

(** A request either fails in transport (connection error, timeout: a
    [requests.RequestException] with its message) or is answered. *)
Inductive reply (A : Type) :=
  | Fails (msg : str)
  | Replies (r : Response A).
Arguments Fails {A} _.
Arguments Replies {A} _.

(** One entry of a listing; only its ["id"] is read. *)
Record Repo := mkRepo { repo_id : str }.

(** Everything a run reads from outside: the environment variables, the
    answers to its four requests, the clock and the snapshot file. *)
Record World := mkWorld {
  environ : gmap str str;
  spaces_api : reply (list Repo);
  models_api : reply (list Repo);
  space_api : reply Detail;
  telegram_api : reply unit;
  utcnow : str;
  state_file : option Snapshot;
}.

(** What a run does that can be seen from outside, in order. *)
Inductive event :=
  | Print (line : str)
  | HttpGet (url : str) (params : list (str * str))
  | HttpPost (url : str) (chat_id message parse_mode : str)
  | WriteState (state : Snapshot).

(** The exceptions of the script. [HTTPError] is a
    [requests.RequestException]; [JSONDecodeError] is a [ValueError]. *)
Inductive exn :=
  | RequestException (msg : str)
  | HTTPError (msg : str)
  | JSONDecodeError (msg : str)
  | SystemExit (code : nat).

(** [str(e)] *)
Definition exn_str (e : exn) : str :=
  match e with
  | RequestException msg | HTTPError msg | JSONDecodeError msg => msg
  | SystemExit code => of_nat code
  end.

(** The machine a run acts on: the snapshot file and the events so far. *)
Record Sys := mkSys {
  file : option Snapshot;
  trace : list event;
}.

(** ** The monad of the script: state, trace and exceptions *)

Definition M (A : Type) : Type := Sys → Sys * (exn + A).

#[global] Instance M_ret : MRet M := λ A a σ, (σ, inr a).

#[global] Instance M_bind : MBind M := λ A B k m σ,
  match m σ with
  | (σ', inl e) => (σ', inl e)
  | (σ', inr a) => k a σ'
  end.

Definition raise {A} (e : exn) : M A := λ σ, (σ, inl e).

Definition emit (ev : event) : M unit :=
  λ σ, (mkSys (file σ) (trace σ ++ [ev]), inr tt).

(** [try: m  except <the classes handler accepts> as e: handler e] *)
Definition try_except {A} (m : M A) (handler : exn → option (M A)) : M A :=
  λ σ,
  match m σ with
  | (σ', inl e) =>
      match handler e with
      | Some h => h σ'
      | None => (σ', inl e)
      end
  | r => r
  end.

Definition print (line : str) : M unit := emit (Print line).

(** [sys.exit(code)] *)
Definition sys_exit {A} (code : nat) : M A := raise (SystemExit code).

(** ** The requests library, as far as the script uses it *)

Definition requests_get {A} (api : reply A) (url : str) (params : list (str * str))
  : M (Response A) :=
  _ ← emit (HttpGet url params);
  match api with
  | Fails msg => raise (RequestException msg)
  | Replies r => mret r
  end.

Definition requests_post (api : reply unit) (url chat_id message parse_mode : str)
  : M (Response unit) :=
  _ ← emit (HttpPost url chat_id message parse_mode);
  match api with
  | Fails msg => raise (RequestException msg)
  | Replies r => mret r
  end.

(** [resp.json()] *)
Definition resp_json {A} (resp : Response A) : M A :=
  match json resp with
  | inl msg => raise (JSONDecodeError msg)
  | inr a => mret a
  end.

(** The status ranges [raise_for_status] tells apart. *)
Definition client_error (status : nat) : bool :=
  (400 <=? status)%nat && (status <? 500)%nat.

Definition server_error (status : nat) : bool :=
  (500 <=? status)%nat && (status <? 600)%nat.

(** [resp.raise_for_status()]: an [HTTPError] for a 4xx or 5xx status. *)
Definition raise_for_status {A} (resp : Response A) : M unit :=
  let http_error (kind : str) : str :=
    of_nat (status_code resp) ++ kind ++ reason resp
      ++ lit " for url: " ++ url resp in
  if client_error (status_code resp) then
    raise (HTTPError (http_error (lit " Client Error: ")))
  else if server_error (status_code resp) then
    raise (HTTPError (http_error (lit " Server Error: ")))
  else mret tt.

(** [resp.ok]: [raise_for_status] does not raise. *)
Definition resp_ok {A} (resp : Response A) : bool :=
  negb (client_error (status_code resp) || server_error (status_code resp)).

Arguments client_error : simpl never.
Arguments server_error : simpl never.

(** ** The script *)

Definition HUGGINGFACE_API : str := lit "https://huggingface.co/api".
Definition JANE_STREET_ORG : str := lit "jane-street".
Definition WATCHED_SPACE : str := lit "jane-street/puzzle".

(** The dict [fetch_repo_lists] returns. *)
Record RepoLists := mkRepoLists {
  repos_space_ids : list str;
  repos_model_ids : list str;
}.

(** [format_alert], lines 80-87. *)
Definition priority_icons : gmap str str :=
  {[ HIGH := [0x1f6a8]; MEDIUM := [0x1f4e6] ]}.

Definition format_alert (changes : list Change) : str :=
  let lines := [lit "<b>Jane Street HuggingFace Activity</b>" ++ nl] in
  let lines :=
    lines ++
    ((λ '(priority, msg),
        let icon := default [0x2139; 0xfe0f] (priority_icons !! priority) in
        icon ++ lit " [" ++ priority ++ lit "] " ++ msg) <$> changes) in
  let lines := lines ++ [nl ++ lit "https://huggingface.co/" ++ JANE_STREET_ORG] in
  join nl lines.

Section Script.

Variable w : World.

(** [fetch_repo_lists], lines 15-29: no status check on either listing. *)
Definition fetch_repo_lists : M RepoLists :=
  resp ← requests_get (spaces_api w) (HUGGINGFACE_API ++ lit "/spaces")
           [(lit "author", JANE_STREET_ORG)];
  spaces ← resp_json resp;
  resp ← requests_get (models_api w) (HUGGINGFACE_API ++ lit "/models")
           [(lit "author", JANE_STREET_ORG)];
  models ← resp_json resp;
  mret (mkRepoLists (sorted (repo_id <$> spaces)) (sorted (repo_id <$> models))).

(** [fetch_space_detail], lines 32-42. *)
Definition fetch_space_detail (space_id : str) : M Detail :=
  resp ← requests_get (space_api w) (HUGGINGFACE_API ++ lit "/spaces/" ++ space_id) [];
  _ ← raise_for_status resp;
  data ← resp_json resp;
  mret (mkDetail (sha data) (lastModified data)).

(** [load_state] and [save_state], lines 45-55. *)
Definition load_state : M (option Snapshot) := λ σ, (σ, inr (file σ)).

Definition save_state (state : Snapshot) : M unit :=
  λ σ, (mkSys (Some state) (trace σ ++ [WriteState state]), inr tt).

(** [send_telegram], lines 90-104. *)
Definition send_telegram (message : str) : M bool :=
  let token := environ w !! lit "TELEGRAM_BOT_TOKEN" in
  let chat_id := environ w !! lit "TELEGRAM_CHAT_ID" in
  if negb (truthy token) || negb (truthy chat_id) then
    _ ← print (lit "Telegram not configured. Would have sent:" ++ nl ++ message);
    mret false
  else
    resp ← requests_post (telegram_api w)
             (lit "https://api.telegram.org/bot" ++ default [] token ++ lit "/sendMessage")
             (default [] chat_id) message (lit "HTML");
    if negb (resp_ok resp) then
      _ ← print (lit "Telegram API error: " ++ of_nat (status_code resp)
                   ++ lit " " ++ text resp);
      mret false
    else mret true.

(** The [try] block of [main], lines 108-113. *)
Definition fetch : M (RepoLists * Detail) :=
  try_except
    (repos ← fetch_repo_lists;
     space_detail ← fetch_space_detail WATCHED_SPACE;
     mret (repos, space_detail))
    (λ e,
       match e with
       | RequestException _ | HTTPError _ | JSONDecodeError _ =>
           Some (_ ← print (lit "API fetch failed: " ++ exn_str e); sys_exit 1)
       | SystemExit _ => None
       end).

(** [new_state], lines 115-119. *)
Definition make_state (repos : RepoLists) (space_detail : Detail) : Snapshot :=
  mkSnapshot (repos_space_ids repos) (repos_model_ids repos)
    (Some space_detail) (utcnow w).

(** [main], lines 107-137. *)
Definition main : M unit :=
  '(repos, space_detail) ← fetch;
  let new_state := make_state repos space_detail in
  old_state ← load_state;
  match old_state with
  | None =>
      _ ← print (lit "First run " ++ [0x2014] ++ lit " capturing initial state, no alerts sent.");
      save_state new_state
  | Some old_state =>
      let changes := detect_changes old_state new_state in
      _ ← (if bool_decide (changes ≠ []) then
             let message := format_alert changes in
             sent ← send_telegram message;
             print (lit "Detected " ++ of_nat (length changes)
                      ++ lit " change(s). Telegram sent: " ++ of_bool sent)
           else print (lit "No changes detected."));
      save_state new_state
  end.

End Script.

(** ** A run of the process *)

(** The exit status: that of [sys.exit], 1 for an exception nobody
    catches, 0 when [main] returns. *)
Definition exit_status (r : exn + unit) : nat :=
  match r with
  | inr _ => 0
  | inl (SystemExit code) => code
  | inl _ => 1
  end.

Record Outcome := mkOutcome {
  exit_code : nat;
  result : exn + unit;
  final : Sys;
}.

(** The machine a run starts on: the snapshot file as the world has it,
    and no event yet. *)
Definition boot (w : World) : Sys := mkSys (state_file w) [].

Definition run (w : World) : Outcome :=
  let '(σ, r) := main w (boot w) in
  mkOutcome (exit_status r) r σ.

(** The lines printed, the POST requests sent and the snapshots written
    during a run. *)
Definition printed (t : list event) : list str :=
  omap (λ ev, match ev with Print line => Some line | _ => None end) t.

Definition is_post (ev : event) : bool :=
  match ev with HttpPost _ _ _ _ => true | _ => false end.

Definition written (t : list event) : list Snapshot :=
  omap (λ ev, match ev with WriteState s => Some s | _ => None end) t.

(** * Vocabulary of the properties *)

(** ** Changes *)

(** How many entries of [changes] are the change [c]. *)
Definition occurrences (c : Change) (changes : list Change) : nat :=
  length (filter (λ c', c' = c) changes).

(** The change that reports the watched space, recognised by its text. *)
Definition is_watched_change (c : Change) : bool :=
  startswith (lit "Puzzle space updated (sha: ") c.2.

(** The part of the change list that reports the watched space. *)
Definition watched_changes (old_state new_state : Snapshot) : list Change :=
  if truthy (get_sha old_state) && truthy (get_sha new_state)
     && bool_decide (get_sha old_state ≠ get_sha new_state)
  then [sha_change (default [] (get_sha new_state))]
  else [].

(** What the claims call a changed token: both snapshots carry a sha that
    is present and not empty, and the two differ. *)
Definition sha_changed (old_state new_state : Snapshot) : bool :=
  match get_sha old_state, get_sha new_state with
  | Some ((_ :: _) as old_sha), Some ((_ :: _) as new_sha) =>
      bool_decide (old_sha ≠ new_sha)
  | _, _ => false
  end.

(** Two snapshots that carry the same listings and the same sha. *)
Definition same_observed (s s' : Snapshot) : Prop :=
  space_ids s = space_ids s' ∧ model_ids s = model_ids s'
  ∧ get_sha s = get_sha s'.

(** ** Requests and lines of a run *)

(** The ids of the entries of a listing that was answered and decoded. *)
Definition listing_ids (api : reply (list Repo)) : list str :=
  match api with
  | Replies r => match json r with inr entries => repo_id <$> entries | inl _ => [] end
  | Fails _ => []
  end.

(** A network or parse error: the request fails in transport or its body
    does not decode. *)
Definition network_or_parse_error {A} (api : reply A) : bool :=
  match api with
  | Fails _ => true
  | Replies r => match json r with inl _ => true | inr _ => false end
  end.

(** The three GET requests of a run, in the order they are sent. *)
Definition fetch_gets : list event :=
  [ HttpGet (HUGGINGFACE_API ++ lit "/spaces") [(lit "author", JANE_STREET_ORG)];
    HttpGet (HUGGINGFACE_API ++ lit "/models") [(lit "author", JANE_STREET_ORG)];
    HttpGet (HUGGINGFACE_API ++ lit "/spaces/" ++ WATCHED_SPACE) [] ].

Definition fetch_failed_line (msg : str) : event :=
  Print (lit "API fetch failed: " ++ msg).

Definition first_run_line : str :=
  lit "First run " ++ [0x2014] ++ lit " capturing initial state, no alerts sent.".

Definition no_changes_line : str := lit "No changes detected.".

Definition detected_line (changes : list Change) (sent : bool) : str :=
  lit "Detected " ++ of_nat (length changes)
    ++ lit " change(s). Telegram sent: " ++ of_bool sent.

(** ** Sample snapshots *)

(** Two snapshots a day apart: space [b] and model [m] are new, and the
    watched space has a new sha. [s_new'] and [s_old'] are the same
    snapshots with another time stamp and another [lastModified]. *)
Definition s_old : Snapshot :=
  mkSnapshot [lit "jane-street/a"] []
    (Some (mkDetail (Some (lit "0123456789abcdef0123")) (Some (lit "2026-01-01"))))
    (lit "2026-01-01T00:00:00+00:00").

Definition s_new : Snapshot :=
  mkSnapshot [lit "jane-street/a"; lit "jane-street/b"] [lit "jane-street/m"]
    (Some (mkDetail (Some (lit "fedcba9876543210fedc")) (Some (lit "2026-01-02"))))
    (lit "2026-01-02T00:00:00+00:00").

Definition s_old' : Snapshot :=
  mkSnapshot [lit "jane-street/a"] []
    (Some (mkDetail (Some (lit "0123456789abcdef0123")) None))
    (lit "2026-02-01T00:00:00+00:00").

Definition s_new' : Snapshot :=
  mkSnapshot [lit "jane-street/a"; lit "jane-street/b"] [lit "jane-street/m"]
    (Some (mkDetail (Some (lit "fedcba9876543210fedc")) (Some (lit "2026-02-02"))))
    (lit "2026-02-02T00:00:00+00:00").

Definition detail_new : Detail :=
  mkDetail (Some (lit "fedcba9876543210fedc")) (Some (lit "2026-01-02")).

(** The snapshots the runs on [w_first] and [w_repeated] (below) write. *)
Definition s_first : Snapshot :=
  mkSnapshot [lit "jane-street/a"; lit "jane-street/b"] [lit "jane-street/m"]
    (Some detail_new) (lit "2026-01-02T00:00:00+00:00").

Definition s_repeated : Snapshot :=
  mkSnapshot [lit "jane-street/a"; lit "jane-street/a"] []
    (Some detail_new) (lit "2026-01-02T00:00:00+00:00").

(** The snapshot the run on [w_listing_500] (below) writes. *)
Definition s_listing_500 : Snapshot :=
  mkSnapshot [] [] (Some (mkDetail (Some (lit "0123456789abcdef0123")) None))
    (lit "2026-01-02T00:00:00+00:00").

(** ** Sample worlds *)

(** An answer with status 200. *)
Definition answer {A} (body : A) : Response A :=
  mkResponse 200%nat (lit "OK") (lit "https://huggingface.co/api") [] (inr body).

Definition credentials : gmap str str :=
  {[ lit "TELEGRAM_BOT_TOKEN" := lit "123:abc"; lit "TELEGRAM_CHAT_ID" := lit "42" ]}.

(** No snapshot on disk yet; the listings are not in order. *)
Definition w_first : World :=
  mkWorld credentials
    (Replies (answer [mkRepo (lit "jane-street/b"); mkRepo (lit "jane-street/a")]))
    (Replies (answer [mkRepo (lit "jane-street/m")]))
    (Replies (answer detail_new))
    (Replies (answer tt))
    (lit "2026-01-02T00:00:00+00:00") None.

(** As [w_first], but the listing of spaces names one space twice. *)
Definition w_repeated : World :=
  mkWorld credentials
    (Replies (answer [mkRepo (lit "jane-street/a"); mkRepo (lit "jane-street/a")]))
    (Replies (answer [])) (Replies (answer detail_new)) (Replies (answer tt))
    (lit "2026-01-02T00:00:00+00:00") None.

(** No credentials in the environment. *)
Definition w_unconfigured : World :=
  mkWorld ∅
    (Replies (answer [mkRepo (lit "jane-street/a"); mkRepo (lit "jane-street/b")]))
    (Replies (answer [mkRepo (lit "jane-street/m")]))
    (Replies (answer detail_new)) (Replies (answer tt))
    (lit "2026-01-02T00:00:00+00:00") (Some s_old).

(** The listing of spaces is answered with status 500 and a body that
    decodes (an empty array); a snapshot is on disk. *)
Definition w_listing_500 : World :=
  mkWorld credentials
    (Replies (mkResponse 500%nat (lit "Internal Server Error")
                (lit "https://huggingface.co/api/spaces?author=jane-street")
                (lit "[]") (inr [])))
    (Replies (answer []))
    (Replies (answer (mkDetail (Some (lit "0123456789abcdef0123")) None)))
    (Replies (answer tt))
    (lit "2026-01-02T00:00:00+00:00") (Some s_old).

(** The fetch succeeds and finds changes, the credentials are set, and the
    POST fails in transport. *)
Definition w_post_down : World :=
  mkWorld credentials
    (Replies (answer [mkRepo (lit "jane-street/a"); mkRepo (lit "jane-street/b")]))
    (Replies (answer [mkRepo (lit "jane-street/m")]))
    (Replies (answer detail_new))
    (Fails (lit "Connection refused"))
    (lit "2026-01-02T00:00:00+00:00") (Some s_old).

(** As [w_post_down], but the POST is answered with status 403. *)
Definition w_post_403 : World :=
  mkWorld credentials
    (Replies (answer [mkRepo (lit "jane-street/a"); mkRepo (lit "jane-street/b")]))
    (Replies (answer [mkRepo (lit "jane-street/m")]))
    (Replies (answer detail_new))
    (Replies (mkResponse 403%nat (lit "Forbidden")
                (lit "https://api.telegram.org/bot123:abc/sendMessage")
                (lit "bot was blocked") (inr tt)))
    (lit "2026-01-02T00:00:00+00:00") (Some s_old).

(** The POST of the runs on [w_post_down] and [w_post_403]. *)
Definition post_s_new : event :=
  HttpPost (lit "https://api.telegram.org/bot123:abc/sendMessage") (lit "42")
    (format_alert (detect_changes s_old s_new)) (lit "HTML").

(** ** Vocabulary of the further properties *)

(** Two listings that name the same ids, in any order and any number of
    times. *)
Definition same_ids (l l' : list str) : Prop := ∀ x, x ∈ l ↔ x ∈ l'.

(** The ids of [new_ids] that [old_ids] does not have, as a set. *)
Definition fresh_ids (new_ids old_ids : list str) : gset str :=
  list_to_set new_ids ∖ list_to_set old_ids.

(** [s_new] with its listing of spaces out of order and with a repeated
    id. *)
Definition s_shuffled : Snapshot :=
  mkSnapshot [lit "jane-street/b"; lit "jane-street/a"; lit "jane-street/b"]
    (model_ids s_new) (watched_space s_new) (checked_at s_new).

(** The icon of a priority, read off the dict literal of [format_alert]
    and the default of its [.get]. *)
Definition icon_of (priority : str) : str :=
  if decide (priority = HIGH) then [0x1f6a8]
  else if decide (priority = MEDIUM) then [0x1f4e6]
  else [0x2139; 0xfe0f].

(** The line of one change in the alert. *)
Definition alert_line (c : Change) : str :=
  icon_of c.1 ++ lit " [" ++ c.1 ++ lit "] " ++ c.2.

Definition alert_header : str := lit "<b>Jane Street HuggingFace Activity</b>".
Definition alert_footer : str := lit "https://huggingface.co/jane-street".

(** The POST [send_telegram] sends with the given credentials. *)
Definition post_event (token chat_id message : str) : event :=
  HttpPost (lit "https://api.telegram.org/bot" ++ token ++ lit "/sendMessage")
    chat_id message (lit "HTML").

Definition is_get (ev : event) : bool :=
  match ev with HttpGet _ _ => true | _ => false end.

(** The environment of [credentials] with an empty bot token. *)
Definition w_empty_token : World :=
  mkWorld {[ lit "TELEGRAM_BOT_TOKEN" := []; lit "TELEGRAM_CHAT_ID" := lit "42" ]}
    (Replies (answer [mkRepo (lit "jane-street/a"); mkRepo (lit "jane-street/b")]))
    (Replies (answer [mkRepo (lit "jane-street/m")]))
    (Replies (answer detail_new)) (Replies (answer tt))
    (lit "2026-01-02T00:00:00+00:00") (Some s_old).

(** As [w_post_down], but the POST is answered with status 200. *)
Definition w_delivered : World :=
  mkWorld credentials
    (Replies (answer [mkRepo (lit "jane-street/a"); mkRepo (lit "jane-street/b")]))
    (Replies (answer [mkRepo (lit "jane-street/m")]))
    (Replies (answer detail_new)) (Replies (answer tt))
    (lit "2026-01-02T00:00:00+00:00") (Some s_old).

(** A fetch fails when one of its requests has a network or parse error,
    or when the detail request is answered with a status from 400 to 599. *)
Definition fetch_fails (w : World) : bool :=
  network_or_parse_error (spaces_api w)
  || network_or_parse_error (models_api w)
  || network_or_parse_error (space_api w)
  || match space_api w with
     | Replies resp => negb (resp_ok resp)
     | Fails _ => false
     end.

(** The detail record in the body of the detail answer, if it decodes. *)
Definition fetched_detail (w : World) : option Detail :=
  match space_api w with
  | Replies resp =>
      match json resp with
      | inr data => Some (mkDetail (sha data) (lastModified data))
      | inl _ => None
      end
  | Fails _ => None
  end.

(** The snapshot a run builds from the answers of the world. *)
Definition new_snapshot (w : World) : Snapshot :=
  mkSnapshot (sorted (listing_ids (spaces_api w)))
    (sorted (listing_ids (models_api w))) (fetched_detail w) (utcnow w).

(** The listing of models fails in transport. *)
Definition w_models_down : World :=
  mkWorld credentials
    (Replies (answer [mkRepo (lit "jane-street/a")]))
    (Fails (lit "Read timed out"))
    (Replies (answer detail_new)) (Replies (answer tt))
    (lit "2026-01-02T00:00:00+00:00") (Some s_old).

(** The detail request is answered with status 404 and a body that does
    not decode. *)
Definition resp_404 : Response Detail :=
  mkResponse 404%nat (lit "Not Found")
    (lit "https://huggingface.co/api/spaces/jane-street/puzzle")
    (lit "<html>") (inl (lit "Expecting value: line 1 column 1 (char 0)")).

Definition w_detail_404 : World :=
  mkWorld credentials
    (Replies (answer [mkRepo (lit "jane-street/a")]))
    (Replies (answer []))
    (Replies resp_404) (Replies (answer tt))
    (lit "2026-01-02T00:00:00+00:00") (Some s_old).

(** A later run on the answers of [w_first], from the snapshot the run on
    [w_first] left, and with no credentials. *)
Definition w_second : World :=
  mkWorld ∅ (spaces_api w_first) (models_api w_first) (space_api w_first)
    (Fails (lit "Connection refused"))
    (lit "2026-01-03T00:00:00+00:00") (Some s_first).

(** ** Tactics *)

Arguments format_alert : simpl never.
Arguments detect_changes : simpl never.

Ltac unfold_M :=
  unfold fetch, try_except, fetch_repo_lists, fetch_space_detail, requests_get,
    requests_post, resp_json, raise_for_status, resp_ok, print, sys_exit, emit,
    raise, load_state, save_state, mbind, M_bind, mret, M_ret in *.

Ltac destruct_reply api :=
  let m := fresh "msg" in
  let st := fresh "status" in
  let body := fresh "body" in
  destruct api as [m|[st ? ? ? [m|body]]]; cbn in *.

(** * Properties *)

(** ** The order on strings and [sorted] *)

Section Order.

Lemma leb_total (a b : str) : leb a b = true ∨ leb b a = true.
Proof.
  revert b. induction a as [|x a IH]; intros [|y b]; simpl; auto.
  destruct (N.ltb_spec x y), (N.ltb_spec y x); auto.
Qed.

Lemma leb_trans (a b c : str) :
  leb a b = true → leb b c = true → leb a c = true.
Proof.
  revert b c. induction a as [|x a IH]; intros [|y b] [|z c]; simpl; auto;
    try discriminate.
  destruct (N.ltb_spec x y), (N.ltb_spec y x), (N.ltb_spec y z),
    (N.ltb_spec z y), (N.ltb_spec x z), (N.ltb_spec z x);
    try discriminate; try lia; eauto.
Qed.

Lemma leb_antisym (a b : str) :
  leb a b = true → leb b a = true → a = b.
Proof.
  revert b. induction a as [|x a IH]; intros [|y b]; simpl; auto;
    try discriminate.
  destruct (N.ltb_spec x y), (N.ltb_spec y x); try discriminate; try lia.
  intros Hab Hba. f_equal; [lia | auto].
Qed.

#[global] Instance le_total : Total le.
Proof. intros a b. apply leb_total. Qed.

#[global] Instance le_trans : Transitive le.
Proof. intros a b c. apply leb_trans. Qed.

#[global] Instance le_antisym : AntiSymm (=) le.
Proof. intros a b. apply leb_antisym. Qed.

Lemma Sorted_sorted (xs : list str) : Sorted le (sorted xs).
Proof. apply (Sorted_merge_sort le). Qed.

Lemma sorted_Permutation (xs : list str) : sorted xs ≡ₚ xs.
Proof. apply (merge_sort_Permutation le). Qed.

(** Whatever algorithm [sorted] runs, its result is determined: it is
    the only sorted list with the elements of [xs]. *)
Lemma sorted_unique (xs ys : list str) :
  Sorted le ys → ys ≡ₚ xs → sorted xs = ys.
Proof.
  intros Hs Hp. apply (Sorted_unique le); auto using Sorted_sorted.
  by rewrite sorted_Permutation.
Qed.

Lemma elem_of_sorted (x : str) (xs : list str) : x ∈ sorted xs ↔ x ∈ xs.
Proof. by rewrite sorted_Permutation. Qed.

Lemma NoDup_sorted (xs : list str) : NoDup xs → NoDup (sorted xs).
Proof. by rewrite sorted_Permutation. Qed.

End Order.

(** ** The ids that are new *)

Section NewIds.

Implicit Types new old : list str.

Lemma elem_of_new_ids (x : str) new old :
  x ∈ sorted (elements (list_to_set new ∖ list_to_set old : gset str))
  ↔ x ∈ new ∧ x ∉ old.
Proof.
  rewrite elem_of_sorted, elem_of_elements, elem_of_difference.
  by rewrite !elem_of_list_to_set.
Qed.

Lemma NoDup_new_ids new old :
  NoDup (sorted (elements (list_to_set new ∖ list_to_set old : gset str))).
Proof. apply NoDup_sorted, NoDup_elements. Qed.

Lemma new_ids_same new :
  sorted (elements (list_to_set new ∖ list_to_set new : gset str)) = [].
Proof. by rewrite difference_diag_L, elements_empty. Qed.

End NewIds.

(** ** Counting entries of a change list *)

Section Counting.

Lemma occurrences_app c l1 l2 :
  occurrences c (l1 ++ l2) = (occurrences c l1 + occurrences c l2)%nat.
Proof. unfold occurrences. by rewrite filter_app, length_app. Qed.

Lemma occurrences_absent c l : c ∉ l → occurrences c l = 0%nat.
Proof.
  unfold occurrences. induction l as [|x l IH]; [done|].
  rewrite not_elem_of_cons. intros [Hne Hnin].
  rewrite filter_cons_False by congruence. auto.
Qed.

Lemma occurrences_NoDup c l :
  NoDup l → occurrences c l = if decide (c ∈ l) then 1%nat else 0%nat.
Proof.
  intros Hnd. destruct (decide (c ∈ l)) as [Hin|Hnin];
    [|by apply occurrences_absent].
  induction Hnd as [|x l Hx Hnd IH]; [by apply elem_of_nil in Hin|].
  unfold occurrences in *. apply elem_of_cons in Hin as [->|Hin].
  - rewrite filter_cons_True by done. simpl. f_equal.
    by apply occurrences_absent.
  - rewrite filter_cons_False; [auto|]. intros ->. done.
Qed.

#[global] Instance new_space_change_inj : Inj (=) (=) new_space_change.
Proof. intros a b [= H]. done. Qed.

#[global] Instance new_model_change_inj : Inj (=) (=) new_model_change.
Proof. intros a b [= H]. done. Qed.

Lemma space_change_not_model sid (l : list str) :
  new_space_change sid ∉ new_model_change <$> l.
Proof. rewrite list_elem_of_fmap. intros (mid & [= ] & _). Qed.

Lemma model_change_not_space mid (l : list str) :
  new_model_change mid ∉ new_space_change <$> l.
Proof. rewrite list_elem_of_fmap. intros (sid & [= ] & _). Qed.

Lemma watched_not_space (l : list str) :
  filter is_watched_change (new_space_change <$> l) = [].
Proof.
  induction l as [|x l IH]; [done|].
  rewrite fmap_cons, filter_cons_False; [done | by vm_compute].
Qed.

Lemma watched_not_model (l : list str) :
  filter is_watched_change (new_model_change <$> l) = [].
Proof.
  induction l as [|x l IH]; [done|].
  rewrite fmap_cons, filter_cons_False; [done | by vm_compute].
Qed.

Lemma watched_sha_change (n : str) : is_watched_change (sha_change n) = true.
Proof. reflexivity. Qed.

End Counting.

(** ** The differ *)

Section Differ.

Implicit Types old new : Snapshot.

Lemma detect_changes_parts old new :
  detect_changes old new =
    (new_space_change <$>
       sorted (elements (list_to_set (space_ids new) ∖ list_to_set (space_ids old) : gset str)))
    ++ (new_model_change <$>
          sorted (elements (list_to_set (model_ids new) ∖ list_to_set (model_ids old) : gset str)))
    ++ watched_changes old new.
Proof.
  unfold detect_changes, watched_changes. simpl.
  destruct (truthy (get_sha old) && truthy (get_sha new)); simpl;
    [destruct (bool_decide _)|]; by rewrite ?app_nil_r, <- ?app_assoc.
Qed.

Lemma watched_changes_spec old new :
  watched_changes old new =
    if sha_changed old new then [sha_change (default [] (get_sha new))] else [].
Proof.
  unfold watched_changes, sha_changed.
  destruct (get_sha old) as [[|a o]|], (get_sha new) as [[|b n]|]; simpl; try done.
  destruct (decide (a :: o = b :: n)) as [Heq|Hne].
  - rewrite !bool_decide_eq_false_2; [done | by intros H | by intros H; apply H; f_equal].
  - rewrite !bool_decide_eq_true_2; [done | done | congruence].
Qed.

Lemma space_change_not_watched sid old new :
  new_space_change sid ∉ watched_changes old new.
Proof.
  unfold watched_changes. case_match; [|apply not_elem_of_nil].
  rewrite list_elem_of_singleton. intros [= ].
Qed.

Lemma model_change_not_watched mid old new :
  new_model_change mid ∉ watched_changes old new.
Proof.
  unfold watched_changes. case_match; [|apply not_elem_of_nil].
  rewrite list_elem_of_singleton. intros [= ].
Qed.

Lemma occurrences_new (f : str → Change) `{!Inj (=) (=) f} (x : str) (new_ids old_ids : list str) :
  occurrences (f x)
    (f <$> sorted (elements (list_to_set new_ids ∖ list_to_set old_ids : gset str)))
  = if decide (x ∈ new_ids ∧ x ∉ old_ids) then 1%nat else 0%nat.
Proof.
  rewrite occurrences_NoDup by apply (NoDup_fmap_2 f), NoDup_new_ids.
  assert (f x ∈ f <$> sorted (elements (list_to_set new_ids ∖ list_to_set old_ids : gset str))
          ↔ x ∈ new_ids ∧ x ∉ old_ids) as Hiff.
  { rewrite <- elem_of_new_ids. apply (list_elem_of_fmap_inj f). }
  repeat case_decide; tauto.
Qed.

End Differ.

Example detect_changes_s_old_s_new :
  detect_changes s_old s_new =
    [ (HIGH, lit "New Space: jane-street/b");
      (MEDIUM, lit "New Model: jane-street/m");
      (MEDIUM, lit "Puzzle space updated (sha: fedcba987654)") ].
Proof. vm_compute. reflexivity. Qed.

(** A listing of the new snapshot that repeats an id, out of order. *)
Example detect_changes_repeated_id :
  detect_changes
    (mkSnapshot [lit "a"] [] None [])
    (mkSnapshot [lit "c"; lit "b"; lit "c"; lit "a"] [] None [])
  = [ (HIGH, lit "New Space: b"); (HIGH, lit "New Space: c") ].
Proof. vm_compute. reflexivity. Qed.

(** C1. For every pair of snapshots and every identifier: the change list
    of [detect_changes] holds the entry [("HIGH", "New Space: <id>")]
    exactly once when the id is among the new snapshot's space ids and not
    among the old one's, and not at all otherwise (so not for an id present
    in both); likewise [("MEDIUM", "New Model: <id>")] for the model ids.
    Every entry of the list is such an entry for an id that is new, or the
    entry of the watched space. *)
Theorem detect_changes_new_ids (old_state new_state : Snapshot) (id : str) :
  occurrences (HIGH, lit "New Space: " ++ id) (detect_changes old_state new_state)
    = (if decide (id ∈ space_ids new_state ∧ id ∉ space_ids old_state)
       then 1%nat else 0%nat)
  ∧ occurrences (MEDIUM, lit "New Model: " ++ id) (detect_changes old_state new_state)
    = (if decide (id ∈ model_ids new_state ∧ id ∉ model_ids old_state)
       then 1%nat else 0%nat)
  ∧ ∀ c : Change, c ∈ detect_changes old_state new_state →
      (∃ sid, c = (HIGH, lit "New Space: " ++ sid)
              ∧ sid ∈ space_ids new_state ∧ sid ∉ space_ids old_state)
      ∨ (∃ mid, c = (MEDIUM, lit "New Model: " ++ mid)
                ∧ mid ∈ model_ids new_state ∧ mid ∉ model_ids old_state)
      ∨ is_watched_change c = true.
Proof.
  rewrite detect_changes_parts. split; [|split].
  - change (HIGH, lit "New Space: " ++ id) with (new_space_change id).
    rewrite !occurrences_app, (occurrences_new new_space_change).
    rewrite (occurrences_absent _ (new_model_change <$> _))
      by apply space_change_not_model.
    rewrite (occurrences_absent _ (watched_changes _ _))
      by apply space_change_not_watched.
    lia.
  - change (MEDIUM, lit "New Model: " ++ id) with (new_model_change id).
    rewrite !occurrences_app, (occurrences_new new_model_change).
    rewrite (occurrences_absent _ (new_space_change <$> _))
      by apply model_change_not_space.
    rewrite (occurrences_absent _ (watched_changes _ _))
      by apply model_change_not_watched.
    lia.
  - intros c. rewrite !elem_of_app, !list_elem_of_fmap.
    intros [(sid & -> & Hin)|[(mid & -> & Hin)|Hin]].
    + left. exists sid. by apply elem_of_new_ids in Hin.
    + right; left. exists mid. by apply elem_of_new_ids in Hin.
    + right; right. unfold watched_changes in Hin.
      case_match; [|by apply elem_of_nil in Hin].
      apply list_elem_of_singleton in Hin as ->. apply watched_sha_change.
Qed.

(** C2. For every pair of snapshots, the change list of [detect_changes]
    holds exactly one change for the watched space, with priority MEDIUM
    and the first twelve characters of the new sha, when both snapshots
    carry a sha that is present and not empty and the two differ; it holds
    none when the sha is missing or empty on either side, or unchanged. *)
Theorem detect_changes_watched (old_state new_state : Snapshot) :
  filter is_watched_change (detect_changes old_state new_state) =
    if sha_changed old_state new_state
    then [ (MEDIUM, lit "Puzzle space updated (sha: "
                      ++ take 12 (default [] (get_sha new_state)) ++ lit ")") ]
    else [].
Proof.
  rewrite detect_changes_parts, !filter_app.
  rewrite watched_not_space, watched_not_model, watched_changes_spec. simpl.
  by destruct (sha_changed old_state new_state).
Qed.

(** C3. For every snapshot [s], [detect_changes s s] is the empty list. *)
Theorem detect_changes_same (s : Snapshot) : detect_changes s s = [].
Proof.
  rewrite detect_changes_parts, !new_ids_same. unfold watched_changes.
  rewrite (bool_decide_eq_false_2 (get_sha s ≠ get_sha s)) by (intros H; by apply H).
  by rewrite andb_false_r.
Qed.

(** C10. The change list depends only on the space ids, the model ids and
    the sha of the watched space: snapshots that agree on these, whatever
    their [checked_at] and [lastModified], give the same change list. *)
Theorem detect_changes_observed (old_state new_state old_state' new_state' : Snapshot) :
  same_observed old_state old_state' →
  same_observed new_state new_state' →
  detect_changes old_state new_state = detect_changes old_state' new_state'.
Proof.
  intros (Hs & Hm & Hsha) (Hs' & Hm' & Hsha').
  unfold detect_changes. by rewrite Hs, Hm, Hsha, Hs', Hm', Hsha'.
Qed.

Lemma detect_changes_observed_witness :
  checked_at s_new ≠ checked_at s_new'
  ∧ watched_space s_old ≠ watched_space s_old'
  ∧ detect_changes s_old s_new = detect_changes s_old' s_new'.
Proof.
  split; [by vm_compute|]. split; [by vm_compute|].
  apply detect_changes_observed; repeat split; reflexivity.
Defined.

(** ** The fetcher *)

Section Fetcher.

Variable w : World.
Implicit Types σ : Sys.

Lemma fetch_inr σ0 σ repos space_detail :
  fetch w σ0 = (σ, inr (repos, space_detail)) →
  σ = mkSys (file σ0) (trace σ0 ++ fetch_gets)
  ∧ repos = mkRepoLists (sorted (listing_ids (spaces_api w)))
                        (sorted (listing_ids (models_api w)))
  ∧ network_or_parse_error (spaces_api w) = false
  ∧ network_or_parse_error (models_api w) = false
  ∧ network_or_parse_error (space_api w) = false.
Proof.
  unfold_M. unfold listing_ids, network_or_parse_error, fetch_gets.
  destruct_reply (spaces_api w); try (intros [= ]; fail).
  destruct_reply (models_api w); try (intros [= ]; fail).
  destruct_reply (space_api w); try (intros [= ]; fail);
    destruct (client_error _); cbn; try (intros [= ]; fail);
    destruct (server_error _); cbn; try (intros [= ]; fail).
  intros [= <- <- <-]. by rewrite <- !app_assoc.
Qed.

Lemma fetch_inl σ0 σ e :
  fetch w σ0 = (σ, inl e) →
  e = SystemExit 1 ∧ file σ = file σ0
  ∧ ∃ k msg, (1 ≤ k ≤ 3)%nat
      ∧ trace σ = trace σ0 ++ take k fetch_gets ++ [fetch_failed_line msg].
Proof.
  unfold_M. unfold fetch_gets, fetch_failed_line.
  destruct_reply (spaces_api w).
  1,2: intros [= <- <-]; repeat split; exists 1%nat; eexists;
       (split; [lia|]); by rewrite <- !app_assoc.
  destruct_reply (models_api w).
  1,2: intros [= <- <-]; repeat split; exists 2%nat; eexists;
       (split; [lia|]); by rewrite <- !app_assoc.
  destruct_reply (space_api w);
    try destruct (client_error _); cbn;
    try destruct (server_error _); cbn;
    try (intros [= ]; fail);
    intros [= <- <-]; repeat split; exists 3%nat; eexists;
    (split; [lia|]); by rewrite <- !app_assoc.
Qed.

(** A network or parse error on any of the three requests makes the
    fetch fail. *)
Lemma fetch_error σ0 :
  network_or_parse_error (spaces_api w)
  || network_or_parse_error (models_api w)
  || network_or_parse_error (space_api w) = true →
  ∃ σ, fetch w σ0 = (σ, inl (SystemExit 1)).
Proof.
  intros Herr. destruct (fetch w σ0) as [σ [e|[repos d]]] eqn:Hf.
  - apply fetch_inl in Hf as (-> & _). eauto.
  - apply fetch_inr in Hf as (_ & _ & H1 & H2 & H3).
    by rewrite H1, H2, H3 in Herr.
Qed.

(** So does a 4xx or 5xx status on the detail request. *)
Lemma fetch_detail_status σ0 (resp : Response Detail) :
  space_api w = Replies resp → resp_ok resp = false →
  ∃ σ, fetch w σ0 = (σ, inl (SystemExit 1)).
Proof.
  intros Hr Hok. destruct (fetch w σ0) as [σ [e|[repos d]]] eqn:Hf.
  - apply fetch_inl in Hf as (-> & _). eauto.
  - exfalso. revert Hf Hok. unfold_M. rewrite Hr.
    destruct_reply (spaces_api w); try (intros [= ]; fail).
    destruct_reply (models_api w); try (intros [= ]; fail).
    destruct (client_error _), (server_error _); cbn;
      try (intros [= ]; fail); try done;
      destruct (json resp); cbn; intros [= ].
Qed.

End Fetcher.

(** ** The notifier *)

Section Notifier.

Variable w : World.
Implicit Types σ : Sys.

Lemma written_snoc (t : list event) (ev : event) :
  written (t ++ [ev]) =
    written t ++ match ev with WriteState s => [s] | _ => [] end.
Proof. unfold written. rewrite omap_app. by destruct ev. Qed.

Lemma send_telegram_inv message σ σ' r :
  send_telegram w message σ = (σ', r) →
  file σ' = file σ ∧ written (trace σ') = written (trace σ)
  ∧ ∀ e, r = inl e → ∃ msg, telegram_api w = Fails msg ∧ e = RequestException msg.
Proof.
  unfold send_telegram. unfold_M.
  destruct (negb _ || negb _); cbn.
  { intros [= <- <-]. cbn. rewrite written_snoc, app_nil_r. done. }
  destruct (telegram_api w) as [msg|resp]; cbn.
  { intros [= <- <-]. cbn. rewrite written_snoc, app_nil_r.
    repeat split. intros e [= <-]. eauto. }
  destruct (negb _); cbn; intros [= <- <-]; cbn;
    rewrite ?written_snoc, ?app_nil_r; done.
Qed.

End Notifier.

(** ** The run *)

Section Run.

Variable w : World.
Implicit Types σ : Sys.

Lemma run_fetch_failed σ e :
  fetch w (boot w) = (σ, inl e) →
  run w = mkOutcome 1 (inl (SystemExit 1)) σ.
Proof.
  intros Hf. destruct (fetch_inl _ _ _ _ Hf) as (-> & _).
  unfold run, main, mbind, M_bind. by rewrite Hf.
Qed.

Lemma run_first σ repos space_detail :
  fetch w (boot w) = (σ, inr (repos, space_detail)) →
  state_file w = None →
  let new_state := make_state w repos space_detail in
  run w = mkOutcome 0 (inr tt)
            (mkSys (Some new_state)
               (fetch_gets ++ [Print first_run_line; WriteState new_state])).
Proof.
  intros Hf Hnone. destruct (fetch_inr _ _ _ _ _ Hf) as (Hσ & _).
  unfold run, main, mbind, M_bind. rewrite Hf, Hσ.
  unfold load_state, save_state, print, emit. cbn. rewrite Hnone. cbn.
  by rewrite <- ?app_assoc.
Qed.

Lemma run_no_changes σ repos space_detail old_state :
  fetch w (boot w) = (σ, inr (repos, space_detail)) →
  state_file w = Some old_state →
  let new_state := make_state w repos space_detail in
  detect_changes old_state new_state = [] →
  run w = mkOutcome 0 (inr tt)
            (mkSys (Some new_state)
               (fetch_gets ++ [Print no_changes_line; WriteState new_state])).
Proof.
  intros Hf Hsome new_state Hnil. destruct (fetch_inr _ _ _ _ _ Hf) as (Hσ & _).
  unfold run, main, mbind, M_bind. rewrite Hf, Hσ.
  unfold load_state, save_state, print, emit. cbn. rewrite Hsome. cbn.
  fold new_state. rewrite Hnil. cbn. by rewrite <- ?app_assoc.
Qed.

Lemma run_sent σ repos space_detail old_state σ' sent :
  fetch w (boot w) = (σ, inr (repos, space_detail)) →
  state_file w = Some old_state →
  let new_state := make_state w repos space_detail in
  let changes := detect_changes old_state new_state in
  changes ≠ [] →
  send_telegram w (format_alert changes) σ = (σ', inr sent) →
  run w = mkOutcome 0 (inr tt)
            (mkSys (Some new_state)
               (trace σ' ++ [Print (detected_line changes sent);
                             WriteState new_state])).
Proof.
  intros Hf Hsome new_state changes Hne Hsend.
  assert (file σ = state_file w) as Hfile
    by (by destruct (fetch_inr _ _ _ _ _ Hf) as (-> & _)).
  unfold run, main, mbind, M_bind. rewrite Hf.
  unfold load_state, save_state, print, emit. cbn.
  rewrite Hfile, Hsome. cbn. fold new_state. fold changes.
  rewrite bool_decide_eq_true_2 by done. rewrite Hsend. cbn.
  by rewrite <- ?app_assoc.
Qed.

Lemma run_send_raised σ repos space_detail old_state σ' e :
  fetch w (boot w) = (σ, inr (repos, space_detail)) →
  state_file w = Some old_state →
  let new_state := make_state w repos space_detail in
  let changes := detect_changes old_state new_state in
  changes ≠ [] →
  send_telegram w (format_alert changes) σ = (σ', inl e) →
  run w = mkOutcome (exit_status (inl e)) (inl e) σ'.
Proof.
  intros Hf Hsome new_state changes Hne Hsend.
  assert (file σ = state_file w) as Hfile
    by (by destruct (fetch_inr _ _ _ _ _ Hf) as (-> & _)).
  unfold run, main, mbind, M_bind. rewrite Hf.
  unfold load_state, save_state, print, emit. cbn.
  rewrite Hfile, Hsome. cbn. fold new_state. fold changes.
  rewrite bool_decide_eq_true_2 by done. by rewrite Hsend.
Qed.

End Run.

(** ** First run, missing credentials, persisted snapshot *)

(** C4. On a first run, that is with no snapshot on disk, whatever was
    fetched: the run writes the new snapshot, once, and it is what the
    file holds afterwards; it sends no POST; it prints the first-run line
    and nothing else, so it reports no change; it exits with 0. *)
Theorem first_run_persists (w : World) (σ : Sys) (repos : RepoLists)
    (space_detail : Detail) :
  state_file w = None →
  fetch w (boot w) = (σ, inr (repos, space_detail)) →
  let new_state := make_state w repos space_detail in
  file (final (run w)) = Some new_state
  ∧ written (trace (final (run w))) = [new_state]
  ∧ filter is_post (trace (final (run w))) = []
  ∧ printed (trace (final (run w))) = [first_run_line]
  ∧ exit_code (run w) = 0%nat.
Proof.
  intros Hnone Hf new_state. rewrite (run_first w _ _ _ Hf Hnone). done.
Qed.

Lemma first_run_persists_witness :
  state_file w_first = None
  ∧ file (final (run w_first)) = Some s_first
  ∧ filter is_post (trace (final (run w_first))) = []
  ∧ exit_code (run w_first) = 0%nat.
Proof.
  split; [reflexivity|].
  destruct (first_run_persists w_first
              (mkSys None fetch_gets)
              (mkRepoLists [lit "jane-street/a"; lit "jane-street/b"]
                 [lit "jane-street/m"])
              detail_new)
    as (Hfile & _ & Hpost & _ & Hexit);
    [reflexivity | vm_compute; reflexivity |].
  split; [exact Hfile|]. split; [exact Hpost | exact Hexit].
Defined.

(** C8. When the bot token or the chat id is absent from the environment,
    [send_telegram] prints the message behind the not-configured notice,
    returns [False], raises nothing and sends no POST: the line it prints
    is the only event it adds, and the snapshot file is untouched. *)
Theorem send_telegram_unconfigured (w : World) (message : str) (σ : Sys) :
  environ w !! lit "TELEGRAM_BOT_TOKEN" = None ∨ environ w !! lit "TELEGRAM_CHAT_ID" = None →
  send_telegram w message σ =
    (mkSys (file σ)
       (trace σ ++ [Print (lit "Telegram not configured. Would have sent:"
                             ++ nl ++ message)]),
     inr false).
Proof.
  unfold send_telegram.
  intros [-> | ->]; [done|]. by rewrite orb_true_r.
Qed.

Lemma send_telegram_unconfigured_witness :
  send_telegram w_unconfigured (lit "hello") (mkSys (Some s_old) []) =
    (mkSys (Some s_old)
       [Print (lit "Telegram not configured. Would have sent:" ++ nl ++ lit "hello")],
     inr false).
Proof.
  apply (send_telegram_unconfigured w_unconfigured (lit "hello") (mkSys (Some s_old) [])).
  left. reflexivity.
Defined.

Section Persisted.

Variable w : World.

(** A run writes the snapshot at most once, and only what it fetched. *)
Lemma run_written :
  written (trace (final (run w))) = []
  ∨ ∃ σ repos space_detail,
      fetch w (boot w) = (σ, inr (repos, space_detail))
      ∧ written (trace (final (run w))) = [make_state w repos space_detail].
Proof.
  destruct (fetch w (boot w)) as [σ [e|[repos d]]] eqn:Hf.
  { left. rewrite (run_fetch_failed w _ _ Hf). cbn.
    apply fetch_inl in Hf as (_ & _ & k & msg & Hk & ->).
    destruct k as [|[|[|[|k]]]]; try lia; reflexivity. }
  pose proof (fetch_inr _ _ _ _ _ Hf) as (Hσ & _).
  assert (written (trace σ) = []) as Hw by (by rewrite Hσ).
  destruct (state_file w) as [old_state|] eqn:Hfile.
  2: { right. exists σ, repos, d. split; [done|].
       by rewrite (run_first w _ _ _ Hf Hfile). }
  destruct (decide (detect_changes old_state (make_state w repos d) = []))
    as [Hnil|Hne].
  { right. exists σ, repos, d. split; [done|].
    by rewrite (run_no_changes w _ _ _ _ Hf Hfile Hnil). }
  destruct (send_telegram w (format_alert
              (detect_changes old_state (make_state w repos d))) σ)
    as [σ' [e|sent]] eqn:Hsend.
  - left. rewrite (run_send_raised w _ _ _ _ _ _ Hf Hfile Hne Hsend). cbn.
    apply send_telegram_inv in Hsend as (_ & -> & _). done.
  - right. exists σ, repos, d. split; [done|].
    rewrite (run_sent w _ _ _ _ _ _ Hf Hfile Hne Hsend). cbn.
    apply send_telegram_inv in Hsend as (_ & Hw' & _).
    unfold written in *. rewrite omap_app, Hw', Hw. done.
Qed.

End Persisted.

(** C9, as the code has it. In every snapshot a run writes, [space_ids]
    and [model_ids] are in sorted order and hold the ids of the fetched
    listings, each as often as its listing names it: each list is
    sorted, and free of duplicates exactly when its listing is. *)
Theorem persisted_ids_sorted (w : World) (s : Snapshot) :
  s ∈ written (trace (final (run w))) →
  (Sorted le (space_ids s)
   ∧ space_ids s ≡ₚ listing_ids (spaces_api w)
   ∧ (NoDup (space_ids s) ↔ NoDup (listing_ids (spaces_api w))))
  ∧ (Sorted le (model_ids s)
     ∧ model_ids s ≡ₚ listing_ids (models_api w)
     ∧ (NoDup (model_ids s) ↔ NoDup (listing_ids (models_api w)))).
Proof.
  destruct (run_written w) as [->|(σ & repos & d & Hf & ->)].
  { intros H. by apply elem_of_nil in H. }
  intros ->%list_elem_of_singleton.
  apply fetch_inr in Hf as (_ & -> & _). cbn.
  split; (split; [apply Sorted_sorted|]);
    (split; [apply sorted_Permutation | by rewrite sorted_Permutation]).
Qed.

Lemma persisted_ids_sorted_witness :
  s_first ∈ written (trace (final (run w_first)))
  ∧ Sorted le (space_ids s_first)
  ∧ space_ids s_first ≡ₚ listing_ids (spaces_api w_first).
Proof.
  assert (s_first ∈ written (trace (final (run w_first)))) as Hin
    by (vm_compute; left).
  split; [exact Hin|].
  destruct (persisted_ids_sorted w_first s_first Hin) as ((Hs & Hp & _) & _).
  split; [exact Hs | exact Hp].
Defined.

(** C9 as stated fails: when the listing of spaces names a space twice,
    the snapshot the run writes holds its id twice. *)
Lemma persisted_ids_repeated :
  written (trace (final (run w_repeated))) = [s_repeated]
  ∧ space_ids s_repeated = [lit "jane-street/a"; lit "jane-street/a"]
  ∧ ¬ NoDup (space_ids s_repeated).
Proof.
  split; [vm_compute; reflexivity|]. split; [reflexivity|].
  intros Hnd. apply NoDup_cons in Hnd as [Hnin _]. apply Hnin. left.
Qed.

(** ** Failures *)

Section Failures.

Variable w : World.

(** A fetch that fails ends the run: exit status 1, after the requests
    sent so far, each once, and the diagnostic; nothing is written. *)
Lemma failed_fetch_outcome σ e :
  fetch w (boot w) = (σ, inl e) →
  exit_code (run w) = 1%nat
  ∧ file (final (run w)) = state_file w
  ∧ written (trace (final (run w))) = []
  ∧ ∃ k msg, (1 ≤ k ≤ 3)%nat
      ∧ trace (final (run w)) = take k fetch_gets ++ [fetch_failed_line msg].
Proof.
  intros Hf. rewrite (run_fetch_failed w _ _ Hf). cbn.
  apply fetch_inl in Hf as (_ & -> & k & msg & Hk & ->). cbn.
  repeat split; [|by eauto].
  destruct k as [|[|[|[|k]]]]; try lia; reflexivity.
Qed.

(** A network or parse error on any of the three requests is such a
    failure. *)
Lemma fetch_failure_aborts :
  network_or_parse_error (spaces_api w)
  || network_or_parse_error (models_api w)
  || network_or_parse_error (space_api w) = true →
  exit_code (run w) = 1%nat
  ∧ file (final (run w)) = state_file w
  ∧ written (trace (final (run w))) = []
  ∧ ∃ k msg, (1 ≤ k ≤ 3)%nat
      ∧ trace (final (run w)) = take k fetch_gets ++ [fetch_failed_line msg].
Proof.
  intros Herr. destruct (fetch_error w (boot w) Herr) as [σ Hf].
  by apply (failed_fetch_outcome _ _ Hf).
Qed.

(** So is a 4xx or 5xx status on the detail request. *)
Lemma detail_status_aborts (resp : Response Detail) :
  space_api w = Replies resp → resp_ok resp = false →
  exit_code (run w) = 1%nat
  ∧ file (final (run w)) = state_file w
  ∧ written (trace (final (run w))) = [].
Proof.
  intros Hr Hok. destruct (fetch_detail_status w (boot w) _ Hr Hok) as [σ Hf].
  destruct (failed_fetch_outcome _ _ Hf) as (? & ? & ? & _). done.
Qed.

(** When the fetch succeeds and the POST, if one is sent, is answered,
    the run exits with 0 and leaves the new snapshot on disk. *)
Lemma answered_run_exits_0 σ repos space_detail :
  fetch w (boot w) = (σ, inr (repos, space_detail)) →
  (∀ msg, telegram_api w ≠ Fails msg) →
  exit_code (run w) = 0%nat
  ∧ file (final (run w)) = Some (make_state w repos space_detail).
Proof.
  intros Hf Hpost.
  destruct (state_file w) as [old_state|] eqn:Hfile;
    [|by rewrite (run_first w _ _ _ Hf Hfile)].
  destruct (decide (detect_changes old_state (make_state w repos space_detail) = []))
    as [Hnil|Hne]; [by rewrite (run_no_changes w _ _ _ _ Hf Hfile Hnil)|].
  destruct (send_telegram w (format_alert
              (detect_changes old_state (make_state w repos space_detail))) σ)
    as [σ' [e|sent]] eqn:Hsend;
    [|by rewrite (run_sent w _ _ _ _ _ _ Hf Hfile Hne Hsend)].
  apply send_telegram_inv in Hsend as (_ & _ & Hraise).
  destruct (Hraise e eq_refl) as (msg & Hfails & _). by destruct (Hpost msg).
Qed.

(** A POST that is answered with a 4xx or 5xx status is reported and
    counts as not sent. *)
Lemma send_telegram_rejected message σ (resp : Response unit) :
  truthy (environ w !! lit "TELEGRAM_BOT_TOKEN") = true →
  truthy (environ w !! lit "TELEGRAM_CHAT_ID") = true →
  telegram_api w = Replies resp → resp_ok resp = false →
  ∃ post, is_post post = true
    ∧ send_telegram w message σ =
        (mkSys (file σ)
           (trace σ ++ [post;
              Print (lit "Telegram API error: " ++ of_nat (status_code resp)
                       ++ lit " " ++ text resp)]),
         inr false).
Proof.
  unfold send_telegram.
  intros -> -> -> Hok. unfold_M. cbn. unfold resp_ok in Hok. rewrite Hok. cbn.
  eexists. split; [|by rewrite <- app_assoc]. done.
Qed.

End Failures.

Example run_w_post_403 :
  run w_post_403 =
    mkOutcome 0 (inr tt)
      (mkSys (Some s_new)
         (fetch_gets ++
          [ post_s_new;
            Print (lit "Telegram API error: 403 bot was blocked");
            Print (lit "Detected 3 change(s). Telegram sent: False");
            WriteState s_new ])).
Proof. vm_compute. reflexivity. Qed.

(** C5 at a run whose POST fails in transport. The three requests of the
    fetch are answered and decode, so the fetch does not fail; the run
    ends with exit status 1 all the same, on the exception of the POST. *)
Theorem exit_1_without_fetch_failure :
  network_or_parse_error (spaces_api w_post_down)
  || network_or_parse_error (models_api w_post_down)
  || network_or_parse_error (space_api w_post_down) = false
  ∧ fetch w_post_down (boot w_post_down)
    = (mkSys (Some s_old) fetch_gets,
       inr (mkRepoLists (space_ids s_new) (model_ids s_new), detail_new))
  ∧ exit_code (run w_post_down) = 1%nat.
Proof. repeat split; vm_compute; reflexivity. Qed.

(** C6 at a listing answered with status 500 and a body that decodes.
    The run does not abort: it takes the body for the listing, prints that
    nothing changed, replaces the snapshot and exits with 0. *)
Theorem listing_status_500_not_aborted :
  run w_listing_500 =
    mkOutcome 0 (inr tt)
      (mkSys (Some s_listing_500)
         (fetch_gets ++ [Print no_changes_line; WriteState s_listing_500])).
Proof. vm_compute. reflexivity. Qed.

(** C7 at a run that detects changes and whose POST fails in transport.
    The exception leaves [send_telegram] and [main]: the run ends on it
    with exit status 1, right after the POST, prints neither the failure
    nor the summary line, and does not write the new snapshot. *)
Theorem delivery_failure_fatal :
  detect_changes s_old s_new ≠ []
  ∧ run w_post_down =
      mkOutcome 1 (inl (RequestException (lit "Connection refused")))
        (mkSys (Some s_old) (fetch_gets ++ [post_s_new]))
  ∧ printed (trace (final (run w_post_down))) = []
  ∧ written (trace (final (run w_post_down))) = [].
Proof. repeat split; vm_compute; (reflexivity || discriminate). Qed.

(** * Further properties *)

(** ** The differ *)

Section DifferMore.

Implicit Types old new : list str.

Lemma new_ids_nil_iff new old :
  sorted (elements (list_to_set new ∖ list_to_set old : gset str)) = []
  ↔ ∀ x, x ∈ new → x ∈ old.
Proof.
  split.
  - intros Hnil x Hin. destruct (decide (x ∈ old)) as [|Hnin]; [done|].
    assert (x ∈ sorted (elements (list_to_set new ∖ list_to_set old : gset str)))
      as Hx by (by apply elem_of_new_ids).
    rewrite Hnil in Hx. by apply elem_of_nil in Hx.
  - intros Hsub. apply elem_of_nil_inv. intros x [Hin Hnin]%elem_of_new_ids.
    by apply Hnin, Hsub.
Qed.

Lemma new_ids_same_ids new new' old old' :
  same_ids new new' → same_ids old old' →
  (list_to_set new ∖ list_to_set old : gset str)
  = list_to_set new' ∖ list_to_set old'.
Proof.
  intros Hn Ho. apply set_eq. intros x.
  rewrite !elem_of_difference, !elem_of_list_to_set. by rewrite (Hn x), (Ho x).
Qed.

Lemma length_new_ids new old :
  length (sorted (elements (list_to_set new ∖ list_to_set old : gset str)))
  = size (fresh_ids new old).
Proof. by rewrite sorted_Permutation. Qed.

Lemma watched_changes_nil_iff (old_state new_state : Snapshot) :
  watched_changes old_state new_state = [] ↔ sha_changed old_state new_state = false.
Proof. rewrite watched_changes_spec. by destruct (sha_changed _ _). Qed.

End DifferMore.

(** X1. [detect_changes] returns the empty list exactly when every space
    id of the new snapshot is a space id of the old one, every model id of
    the new snapshot is a model id of the old one, and the sha has not
    changed. Ids that disappeared are never reported. *)
Theorem detect_changes_nil_iff (old_state new_state : Snapshot) :
  detect_changes old_state new_state = []
  ↔ (∀ id, id ∈ space_ids new_state → id ∈ space_ids old_state)
    ∧ (∀ id, id ∈ model_ids new_state → id ∈ model_ids old_state)
    ∧ sha_changed old_state new_state = false.
Proof.
  rewrite detect_changes_parts.
  rewrite <- !new_ids_nil_iff, <- watched_changes_nil_iff.
  split.
  - intros [H1 [H2 H3]%app_eq_nil]%app_eq_nil.
    by apply fmap_nil_inv in H1, H2.
  - intros (-> & -> & ->). done.
Qed.

(** X2. The change list has one entry per new space id, one per new model
    id, and one more when the sha has changed: its length is the number of
    distinct new space ids plus the number of distinct new model ids plus
    zero or one. *)
Theorem detect_changes_length (old_state new_state : Snapshot) :
  length (detect_changes old_state new_state)
  = (size (fresh_ids (space_ids new_state) (space_ids old_state))
     + size (fresh_ids (model_ids new_state) (model_ids old_state))
     + (if sha_changed old_state new_state then 1 else 0))%nat.
Proof.
  rewrite detect_changes_parts, !length_app, !length_fmap, !length_new_ids.
  rewrite watched_changes_spec. destruct (sha_changed _ _); simpl; lia.
Qed.

(** X3. The order of the ids in a snapshot's listings, and how often a
    listing repeats an id, do not matter to [detect_changes]: snapshots
    whose listings name the same ids and that carry the same sha give the
    same change list. *)
Theorem detect_changes_same_ids (old_state new_state old_state' new_state' : Snapshot) :
  same_ids (space_ids old_state) (space_ids old_state') →
  same_ids (model_ids old_state) (model_ids old_state') →
  get_sha old_state = get_sha old_state' →
  same_ids (space_ids new_state) (space_ids new_state') →
  same_ids (model_ids new_state) (model_ids new_state') →
  get_sha new_state = get_sha new_state' →
  detect_changes old_state new_state = detect_changes old_state' new_state'.
Proof.
  intros Hso Hmo Ho Hsn Hmn Hn. rewrite !detect_changes_parts.
  rewrite (new_ids_same_ids _ _ _ _ Hsn Hso), (new_ids_same_ids _ _ _ _ Hmn Hmo).
  unfold watched_changes. by rewrite Ho, Hn.
Qed.

Lemma detect_changes_same_ids_witness :
  space_ids s_shuffled ≠ space_ids s_new
  ∧ detect_changes s_old s_shuffled = detect_changes s_old s_new.
Proof.
  split; [by vm_compute|].
  apply detect_changes_same_ids; try reflexivity;
    intros x; cbn; rewrite ?elem_of_cons, ?elem_of_nil; tauto.
Defined.

(** X4. The change list is in a fixed order: first the new spaces, in
    ascending order of id and each once, then the new models, in ascending
    order of id and each once, then the entry of the watched space if
    there is one. *)
Theorem detect_changes_order (old_state new_state : Snapshot) :
  ∃ sids mids : list str,
    detect_changes old_state new_state =
      ((λ sid, (HIGH, lit "New Space: " ++ sid)) <$> sids)
      ++ ((λ mid, (MEDIUM, lit "New Model: " ++ mid)) <$> mids)
      ++ filter is_watched_change (detect_changes old_state new_state)
    ∧ Sorted le sids ∧ NoDup sids ∧ Sorted le mids ∧ NoDup mids.
Proof.
  eexists _, _. split; [|split; [apply Sorted_sorted|split;
    [apply NoDup_new_ids|split; [apply Sorted_sorted|apply NoDup_new_ids]]]].
  rewrite detect_changes_parts at 2. rewrite !filter_app.
  rewrite watched_not_space, watched_not_model. simpl.
  assert (filter is_watched_change (watched_changes old_state new_state)
          = watched_changes old_state new_state) as ->.
  { unfold watched_changes. case_match; [|done].
    rewrite filter_cons_True; [done | by rewrite watched_sha_change]. }
  apply detect_changes_parts.
Qed.

(** X5. Every entry [detect_changes] returns has the priority HIGH or
    MEDIUM, so [format_alert] finds its icon in [priority_icons]: the
    fallback icon is never used for a change list of [detect_changes]. *)
Theorem detect_changes_priorities (old_state new_state : Snapshot) (c : Change) :
  c ∈ detect_changes old_state new_state →
  (c.1 = HIGH ∧ priority_icons !! c.1 = Some [0x1f6a8])
  ∨ (c.1 = MEDIUM ∧ priority_icons !! c.1 = Some [0x1f4e6]).
Proof.
  rewrite detect_changes_parts, !elem_of_app, !list_elem_of_fmap.
  intros [(sid & -> & _)|[(mid & -> & _)|Hin]].
  - left. split; reflexivity.
  - right. split; reflexivity.
  - right. unfold watched_changes in Hin. case_match; [|by apply elem_of_nil in Hin].
    apply list_elem_of_singleton in Hin as ->. split; reflexivity.
Qed.

Lemma detect_changes_priorities_witness :
  (HIGH, lit "New Space: jane-street/b") ∈ detect_changes s_old s_new
  ∧ priority_icons !! HIGH = Some [0x1f6a8].
Proof.
  assert ((HIGH, lit "New Space: jane-street/b") ∈ detect_changes s_old s_new)
    as Hin by (vm_compute; left).
  split; [exact Hin|].
  destruct (detect_changes_priorities s_old s_new _ Hin) as [[_ H]|[H _]];
    [exact H | discriminate H].
Defined.

(** ** The formatter *)

Section Formatter.

Lemma join_snoc (sep : str) (ls : list str) (last : str) :
  join sep (ls ++ [last]) = concat ((λ l, l ++ sep) <$> ls) ++ last.
Proof.
  induction ls as [|l ls IH]; [done|].
  cbn [app fmap list_fmap concat]. rewrite <- !app_assoc, <- IH.
  simpl. by destruct (ls ++ [last]) eqn:E; [destruct ls|].
Qed.

Lemma priority_icons_lookup (priority : str) :
  default [0x2139; 0xfe0f] (priority_icons !! priority) = icon_of priority.
Proof.
  unfold priority_icons, icon_of.
  destruct (decide (priority = HIGH)) as [->|Hh]; [done|].
  rewrite lookup_insert_ne by done.
  destruct (decide (priority = MEDIUM)) as [->|Hm]; [done|].
  by rewrite lookup_singleton_ne.
Qed.

End Formatter.

(** X6. The alert [format_alert] builds is the header, an empty line, one
    line per change in the order of the list, an empty line and the link
    to the organisation. The line of a change is its icon, its priority in
    brackets and its message; the icon is the siren for HIGH, the package
    for MEDIUM and the information sign for any other priority. *)
Theorem format_alert_lines (changes : list Change) :
  format_alert changes =
    alert_header ++ nl ++ nl
    ++ concat ((λ c, alert_line c ++ nl) <$> changes)
    ++ nl ++ alert_footer.
Proof.
  unfold format_alert.
  cbv zeta. rewrite <- (app_assoc [_]). cbn [app].
  assert (∀ (l : str) (ls : list str) (last : str),
            join nl (l :: (ls ++ [last])) = l ++ nl ++ join nl (ls ++ [last])) as Hcons.
  { intros l ls last. simpl. by destruct (ls ++ [last]) eqn:E; [destruct ls|]. }
  rewrite Hcons, join_snoc, <- list_fmap_compose.
  unfold alert_header. rewrite <- !app_assoc. do 3 f_equal.
  f_equal; try reflexivity.
  f_equal. apply list_fmap_ext. intros _ [priority msg] _. cbn.
  by rewrite priority_icons_lookup.
Qed.

(** ** The notifier *)

Section NotifierMore.

Variable w : World.
Implicit Types σ : Sys.

Lemma send_telegram_not_configured message σ :
  truthy (environ w !! lit "TELEGRAM_BOT_TOKEN") = false
  ∨ truthy (environ w !! lit "TELEGRAM_CHAT_ID") = false →
  send_telegram w message σ =
    (mkSys (file σ)
       (trace σ ++ [Print (lit "Telegram not configured. Would have sent:"
                             ++ nl ++ message)]),
     inr false).
Proof.
  unfold send_telegram. intros [-> | ->]; [done|]. by rewrite orb_true_r.
Qed.

Lemma send_telegram_configured message σ (token chat_id : str) :
  environ w !! lit "TELEGRAM_BOT_TOKEN" = Some token → token ≠ [] →
  environ w !! lit "TELEGRAM_CHAT_ID" = Some chat_id → chat_id ≠ [] →
  send_telegram w message σ =
    let σ' := mkSys (file σ) (trace σ ++ [post_event token chat_id message]) in
    match telegram_api w with
    | Fails msg => (σ', inl (RequestException msg))
    | Replies resp =>
        if resp_ok resp then (σ', inr true)
        else (mkSys (file σ)
                (trace σ ++ [post_event token chat_id message;
                   Print (lit "Telegram API error: " ++ of_nat (status_code resp)
                            ++ lit " " ++ text resp)]),
              inr false)
    end.
Proof.
  unfold send_telegram. intros -> Ht -> Hc.
  destruct token as [|t token], chat_id as [|c chat_id]; try done.
  unfold_M. cbn. destruct (telegram_api w) as [msg|resp]; [done|]. cbn.
  destruct (client_error _ || server_error _); cbn; [|done].
  by rewrite <- app_assoc.
Qed.

Lemma send_telegram_trace message σ σ' (r : exn + bool) :
  send_telegram w message σ = (σ', r) →
  file σ' = file σ
  ∧ ∃ t, trace σ' = trace σ ++ t
      ∧ written t = [] ∧ filter is_get t = []
      ∧ (length (filter is_post t) ≤ 1)%nat
      ∧ (r = inr true → length (filter is_post t) = 1%nat)
      ∧ (filter is_post t ≠ [] →
         truthy (environ w !! lit "TELEGRAM_BOT_TOKEN") = true
         ∧ truthy (environ w !! lit "TELEGRAM_CHAT_ID") = true).
Proof.
  unfold send_telegram. unfold_M.
  destruct (truthy (environ w !! lit "TELEGRAM_BOT_TOKEN")),
    (truthy (environ w !! lit "TELEGRAM_CHAT_ID")); cbn.
  2-4: intros [= <- <-]; (split; [done|]); eexists; (split; [done|]);
       repeat split; try reflexivity; try (intros [= ]); try done;
       vm_compute; lia.
  destruct (telegram_api w) as [msg|resp]; cbn.
  { intros [= <- <-]. split; [done|]. eexists. split; [done|].
    repeat split; try reflexivity; try (intros [= ]); vm_compute; lia. }
  destruct (negb _); cbn; intros [= <- <-]; (split; [done|]).
  - eexists. split; [by rewrite <- app_assoc|].
    repeat split; try reflexivity; try (intros [= ]); vm_compute; lia.
  - eexists. split; [done|].
    repeat split; try reflexivity; vm_compute; lia.
Qed.

End NotifierMore.

(** X7. With both credentials set and not empty, and the POST answered
    with a status outside 400-599, [send_telegram] sends one POST to the
    bot's [sendMessage] URL with the chat id, the message and the parse
    mode HTML, prints nothing and returns [True]. *)
Theorem send_telegram_delivered (w : World) (message token chat_id : str)
    (resp : Response unit) (σ : Sys) :
  environ w !! lit "TELEGRAM_BOT_TOKEN" = Some token → token ≠ [] →
  environ w !! lit "TELEGRAM_CHAT_ID" = Some chat_id → chat_id ≠ [] →
  telegram_api w = Replies resp → resp_ok resp = true →
  send_telegram w message σ =
    (mkSys (file σ)
       (trace σ ++
        [HttpPost (lit "https://api.telegram.org/bot" ++ token ++ lit "/sendMessage")
           chat_id message (lit "HTML")]),
     inr true).
Proof.
  intros Ht Hte Hc Hce Hr Hok.
  rewrite (send_telegram_configured w _ _ _ _ Ht Hte Hc Hce), Hr. cbn.
  by rewrite Hok.
Qed.

Lemma send_telegram_delivered_witness :
  send_telegram w_delivered (lit "hello") (mkSys (Some s_old) []) =
    (mkSys (Some s_old)
       [HttpPost (lit "https://api.telegram.org/bot" ++ lit "123:abc" ++ lit "/sendMessage")
          (lit "42") (lit "hello") (lit "HTML")],
     inr true).
Proof.
  apply (send_telegram_delivered w_delivered (lit "hello") (lit "123:abc")
           (lit "42") (answer tt) (mkSys (Some s_old) []));
    (reflexivity || discriminate).
Defined.

(** X8. With both credentials set and not empty, and the POST answered
    with a status from 400 to 599, [send_telegram] prints the status and
    the body of the answer behind [Telegram API error:] and returns
    [False]; it raises nothing and sends the POST once. *)
Theorem send_telegram_http_error (w : World) (message token chat_id : str)
    (resp : Response unit) (σ : Sys) :
  environ w !! lit "TELEGRAM_BOT_TOKEN" = Some token → token ≠ [] →
  environ w !! lit "TELEGRAM_CHAT_ID" = Some chat_id → chat_id ≠ [] →
  telegram_api w = Replies resp → resp_ok resp = false →
  send_telegram w message σ =
    (mkSys (file σ)
       (trace σ ++
        [HttpPost (lit "https://api.telegram.org/bot" ++ token ++ lit "/sendMessage")
           chat_id message (lit "HTML");
         Print (lit "Telegram API error: " ++ of_nat (status_code resp)
                  ++ lit " " ++ text resp)]),
     inr false).
Proof.
  intros Ht Hte Hc Hce Hr Hok.
  rewrite (send_telegram_configured w _ _ _ _ Ht Hte Hc Hce), Hr. cbn.
  by rewrite Hok.
Qed.

Lemma send_telegram_http_error_witness :
  send_telegram w_post_403 (lit "hello") (mkSys (Some s_old) []) =
    (mkSys (Some s_old)
       [HttpPost (lit "https://api.telegram.org/bot" ++ lit "123:abc" ++ lit "/sendMessage")
          (lit "42") (lit "hello") (lit "HTML");
        Print (lit "Telegram API error: " ++ of_nat 403 ++ lit " " ++ lit "bot was blocked")],
     inr false).
Proof.
  apply (send_telegram_http_error w_post_403 (lit "hello") (lit "123:abc") (lit "42")
           (mkResponse 403%nat (lit "Forbidden")
              (lit "https://api.telegram.org/bot123:abc/sendMessage")
              (lit "bot was blocked") (inr tt))
           (mkSys (Some s_old) []));
    (reflexivity || discriminate).
Defined.

(** X9. With both credentials set and not empty, a POST that fails in
    transport makes [send_telegram] raise the [RequestException] of the
    request: it returns no value and prints nothing. *)
Theorem send_telegram_raises (w : World) (message token chat_id msg : str) (σ : Sys) :
  environ w !! lit "TELEGRAM_BOT_TOKEN" = Some token → token ≠ [] →
  environ w !! lit "TELEGRAM_CHAT_ID" = Some chat_id → chat_id ≠ [] →
  telegram_api w = Fails msg →
  send_telegram w message σ =
    (mkSys (file σ)
       (trace σ ++
        [HttpPost (lit "https://api.telegram.org/bot" ++ token ++ lit "/sendMessage")
           chat_id message (lit "HTML")]),
     inl (RequestException msg)).
Proof.
  intros Ht Hte Hc Hce Hr.
  by rewrite (send_telegram_configured w _ _ _ _ Ht Hte Hc Hce), Hr.
Qed.

Lemma send_telegram_raises_witness :
  send_telegram w_post_down (lit "hello") (mkSys (Some s_old) []) =
    (mkSys (Some s_old)
       [HttpPost (lit "https://api.telegram.org/bot" ++ lit "123:abc" ++ lit "/sendMessage")
          (lit "42") (lit "hello") (lit "HTML")],
     inl (RequestException (lit "Connection refused"))).
Proof.
  apply (send_telegram_raises w_post_down (lit "hello") (lit "123:abc") (lit "42")
           (lit "Connection refused") (mkSys (Some s_old) []));
    (reflexivity || discriminate).
Defined.

(** X10. A credential that is set to the empty string counts as absent:
    [send_telegram] prints the message behind the not-configured notice,
    returns [False] and sends no POST. *)
Theorem send_telegram_empty_credential (w : World) (message : str) (σ : Sys) :
  environ w !! lit "TELEGRAM_BOT_TOKEN" = Some []
  ∨ environ w !! lit "TELEGRAM_CHAT_ID" = Some [] →
  send_telegram w message σ =
    (mkSys (file σ)
       (trace σ ++ [Print (lit "Telegram not configured. Would have sent:"
                             ++ nl ++ message)]),
     inr false).
Proof.
  intros [H|H]; apply send_telegram_not_configured; [left|right];
    exact (f_equal truthy H).
Qed.

Lemma send_telegram_empty_credential_witness :
  send_telegram w_empty_token (lit "hello") (mkSys (Some s_old) []) =
    (mkSys (Some s_old)
       [Print (lit "Telegram not configured. Would have sent:" ++ nl ++ lit "hello")],
     inr false).
Proof.
  apply (send_telegram_empty_credential w_empty_token (lit "hello")
           (mkSys (Some s_old) [])).
  left. reflexivity.
Defined.

(** X11. Whatever the environment and the answer, [send_telegram] leaves
    the snapshot file alone, sends no GET and at most one POST, and writes
    no snapshot; when it returns [True], it has sent its POST. *)
Theorem send_telegram_effects (w : World) (message : str) (σ σ' : Sys) (r : exn + bool) :
  send_telegram w message σ = (σ', r) →
  file σ' = file σ
  ∧ ∃ t, trace σ' = trace σ ++ t
      ∧ written t = [] ∧ filter is_get t = []
      ∧ (length (filter is_post t) ≤ 1)%nat
      ∧ (r = inr true → length (filter is_post t) = 1%nat).
Proof.
  intros Hsend.
  destruct (send_telegram_trace w _ _ _ _ Hsend)
    as (Hfile & t & Ht & Hw & Hg & Hle & Hone & _).
  split; [done|]. exists t. done.
Qed.

Lemma send_telegram_effects_witness :
  ∃ t, [post_event (lit "123:abc") (lit "42") (lit "hello")] = [] ++ t
       ∧ length (filter is_post t) = 1%nat.
Proof.
  destruct (send_telegram_effects w_delivered (lit "hello") (mkSys (Some s_old) [])
              (mkSys (Some s_old) [post_event (lit "123:abc") (lit "42") (lit "hello")])
              (inr true))
    as (_ & t & Ht & _ & _ & _ & Hone); [reflexivity|].
  exists t. split; [exact Ht | exact (Hone eq_refl)].
Defined.

(** ** The fetcher *)

Section FetcherMore.

Variable w : World.
Implicit Types σ : Sys.

Lemma fetch_succeeds σ0 :
  fetch_fails w = false →
  ∃ d, fetched_detail w = Some d
    ∧ fetch w σ0 =
        (mkSys (file σ0) (trace σ0 ++ fetch_gets),
         inr (mkRepoLists (sorted (listing_ids (spaces_api w)))
                (sorted (listing_ids (models_api w))), d)).
Proof.
  unfold fetch_fails, fetched_detail, listing_ids, network_or_parse_error, fetch_gets.
  unfold_M.
  destruct_reply (spaces_api w); try done.
  destruct_reply (models_api w); try done.
  destruct_reply (space_api w); try done.
  destruct (client_error _), (server_error _); cbn; try done.
  intros _. eexists. split; [done|]. by rewrite <- !app_assoc.
Qed.

Lemma fetch_fails_inl σ0 :
  fetch_fails w = true → ∃ σ, fetch w σ0 = (σ, inl (SystemExit 1)).
Proof.
  unfold fetch_fails. intros [[Herr|Herr]%orb_true_iff|Hst]%orb_true_iff.
  - apply fetch_error. by rewrite Herr.
  - apply fetch_error. by rewrite Herr, orb_true_r.
  - destruct (space_api w) as [|resp] eqn:Hr; [done|].
    apply (fetch_detail_status w σ0 resp Hr). by apply negb_true_iff.
Qed.

Lemma make_state_new_snapshot (d : Detail) :
  fetched_detail w = Some d →
  make_state w (mkRepoLists (sorted (listing_ids (spaces_api w)))
                  (sorted (listing_ids (models_api w)))) d
  = new_snapshot w.
Proof. intros Hd. unfold make_state, new_snapshot. by rewrite Hd. Qed.

End FetcherMore.

(** X12. [fetch_repo_lists] does not look at the status of the two listing
    answers: whenever both bodies decode, whatever the status codes, it
    returns the ids of the two listings, each sorted, after one GET per
    listing. *)
Theorem fetch_repo_lists_any_status (w : World) (σ : Sys)
    (resp_spaces resp_models : Response (list Repo)) (spaces models : list Repo) :
  spaces_api w = Replies resp_spaces → json resp_spaces = inr spaces →
  models_api w = Replies resp_models → json resp_models = inr models →
  fetch_repo_lists w σ =
    (mkSys (file σ)
       (trace σ ++
        [ HttpGet (lit "https://huggingface.co/api" ++ lit "/spaces")
            [(lit "author", lit "jane-street")];
          HttpGet (lit "https://huggingface.co/api" ++ lit "/models")
            [(lit "author", lit "jane-street")] ]),
     inr (mkRepoLists (sorted (repo_id <$> spaces)) (sorted (repo_id <$> models)))).
Proof.
  intros Hs Hjs Hm Hjm. unfold_M. rewrite Hs, Hm. cbn. rewrite Hjs. cbn.
  rewrite Hjm. cbn. by rewrite <- app_assoc.
Qed.

Lemma fetch_repo_lists_any_status_witness :
  status_code (mkResponse 500%nat (lit "Internal Server Error")
                 (lit "https://huggingface.co/api/spaces?author=jane-street")
                 (lit "[]") (inr ([] : list Repo))) = 500%nat
  ∧ fetch_repo_lists w_listing_500 (mkSys (Some s_old) []) =
      (mkSys (Some s_old)
         ([] ++
          [ HttpGet (lit "https://huggingface.co/api" ++ lit "/spaces")
              [(lit "author", lit "jane-street")];
            HttpGet (lit "https://huggingface.co/api" ++ lit "/models")
              [(lit "author", lit "jane-street")] ]),
       inr (mkRepoLists (sorted (repo_id <$> [])) (sorted (repo_id <$> [])))).
Proof.
  split; [reflexivity|].
  apply (fetch_repo_lists_any_status w_listing_500 (mkSys (Some s_old) [])
           (mkResponse 500%nat (lit "Internal Server Error")
              (lit "https://huggingface.co/api/spaces?author=jane-street")
              (lit "[]") (inr [])) (answer []) [] []);
    reflexivity.
Defined.

(** X13. [fetch_space_detail] checks the status before it decodes the
    body: on an answer with a status from 400 to 599 it raises an
    [HTTPError], whether the body decodes or not, after its one GET. *)
Theorem fetch_space_detail_status_first (w : World) (space_id : str) (σ : Sys)
    (resp : Response Detail) :
  space_api w = Replies resp → resp_ok resp = false →
  ∃ msg,
    fetch_space_detail w space_id σ =
      (mkSys (file σ)
         (trace σ ++
          [HttpGet (lit "https://huggingface.co/api" ++ lit "/spaces/" ++ space_id) []]),
       inl (HTTPError msg)).
Proof.
  intros Hr Hok. unfold_M. rewrite Hr. cbn. unfold resp_ok in Hok.
  destruct (client_error _); cbn; [by eexists|].
  destruct (server_error _); cbn; [by eexists|]. done.
Qed.

Lemma fetch_space_detail_status_first_witness :
  network_or_parse_error (Replies resp_404) = true
  ∧ ∃ msg,
      fetch_space_detail w_detail_404 (lit "jane-street/puzzle") (mkSys None []) =
        (mkSys None
           ([] ++
            [HttpGet (lit "https://huggingface.co/api" ++ lit "/spaces/"
                        ++ lit "jane-street/puzzle") []]),
         inl (HTTPError msg)).
Proof.
  split; [reflexivity|].
  apply (fetch_space_detail_status_first w_detail_404 (lit "jane-street/puzzle")
           (mkSys None []) resp_404); reflexivity.
Defined.

(** ** The run *)

Section RunMore.

Variable w : World.
Implicit Types σ : Sys.

Lemma detect_changes_unchanged (s s' : Snapshot) :
  space_ids s = space_ids s' → model_ids s = model_ids s' →
  get_sha s = get_sha s' → detect_changes s s' = [].
Proof.
  intros Hs Hm Hsha. rewrite detect_changes_parts, Hs, Hm, !new_ids_same.
  unfold watched_changes. rewrite Hsha.
  rewrite (bool_decide_eq_false_2 (get_sha s' ≠ get_sha s')) by (intros H; by apply H).
  by rewrite andb_false_r.
Qed.

Lemma fetch_failed_trace (k : nat) (msg : str) :
  (1 ≤ k ≤ 3)%nat →
  let t := take k fetch_gets ++ [fetch_failed_line msg] in
  written t = [] ∧ filter is_post t = [] ∧ filter is_get t = take k fetch_gets
  ∧ printed t = [lit "API fetch failed: " ++ msg].
Proof.
  intros Hk. destruct k as [|[|[|[|k]]]]; try lia; repeat split; reflexivity.
Qed.

(** A run whose fetch fails. *)
Lemma run_failed :
  fetch_fails w = true →
  ∃ k msg, (1 ≤ k ≤ 3)%nat
    ∧ run w = mkOutcome 1 (inl (SystemExit 1))
                (mkSys (state_file w)
                   (take k fetch_gets ++ [fetch_failed_line msg])).
Proof.
  intros Hfail. destruct (fetch_fails_inl w (boot w) Hfail) as [σ Hf].
  rewrite (run_fetch_failed w _ _ Hf).
  apply fetch_inl in Hf as (_ & Hfile & k & msg & Hk & Ht).
  exists k, msg. split; [done|]. destruct σ as [f t]. cbn in *. by rewrite Hfile, Ht.
Qed.

(** A run whose fetch succeeds, on a first run and when nothing changed. *)
Lemma run_fetched_first :
  fetch_fails w = false → state_file w = None →
  run w = mkOutcome 0 (inr tt)
            (mkSys (Some (new_snapshot w))
               (fetch_gets ++ [Print first_run_line; WriteState (new_snapshot w)])).
Proof.
  intros Hok Hnone. destruct (fetch_succeeds w (boot w) Hok) as (d & Hd & Hf).
  rewrite (run_first w _ _ _ Hf Hnone). by rewrite (make_state_new_snapshot w d Hd).
Qed.

Lemma run_fetched_no_changes (old_state : Snapshot) :
  fetch_fails w = false → state_file w = Some old_state →
  detect_changes old_state (new_snapshot w) = [] →
  run w = mkOutcome 0 (inr tt)
            (mkSys (Some (new_snapshot w))
               (fetch_gets ++ [Print no_changes_line; WriteState (new_snapshot w)])).
Proof.
  intros Hok Hsome Hnil. destruct (fetch_succeeds w (boot w) Hok) as (d & Hd & Hf).
  rewrite <- (make_state_new_snapshot w d Hd) in *.
  by rewrite (run_no_changes w _ _ _ _ Hf Hsome Hnil).
Qed.

(** A run that detects changes, in terms of what [send_telegram] does. *)
Lemma run_fetched_changes (old_state : Snapshot) σ' (r : exn + bool) :
  fetch_fails w = false → state_file w = Some old_state →
  let changes := detect_changes old_state (new_snapshot w) in
  changes ≠ [] →
  send_telegram w (format_alert changes) (mkSys (Some old_state) fetch_gets) = (σ', r) →
  run w =
    match r with
    | inl e => mkOutcome (exit_status (inl e)) (inl e) σ'
    | inr sent =>
        mkOutcome 0 (inr tt)
          (mkSys (Some (new_snapshot w))
             (trace σ' ++ [Print (detected_line changes sent);
                           WriteState (new_snapshot w)]))
    end.
Proof.
  intros Hok Hsome changes Hne Hsend.
  destruct (fetch_succeeds w (boot w) Hok) as (d & Hd & Hf).
  unfold boot in Hf. cbn in Hf. rewrite Hsome in Hf. fold (boot w) in Hf.
  unfold changes in *. rewrite <- (make_state_new_snapshot w d Hd) in *.
  assert (fetch w (boot w)
          = (mkSys (Some old_state) fetch_gets,
             inr (mkRepoLists (sorted (listing_ids (spaces_api w)))
                    (sorted (listing_ids (models_api w))), d))) as Hf'
    by (unfold boot; rewrite Hsome; exact Hf).
  destruct r as [e|sent].
  - by rewrite (run_send_raised w _ _ _ _ _ _ Hf' Hsome Hne Hsend).
  - by rewrite (run_sent w _ _ _ _ _ _ Hf' Hsome Hne Hsend).
Qed.

(** Every run ends in one of two ways. *)
Lemma run_outcomes :
  (exit_code (run w) = 0%nat ∧ fetch_fails w = false
   ∧ written (trace (final (run w))) = [new_snapshot w]
   ∧ file (final (run w)) = Some (new_snapshot w))
  ∨ (exit_code (run w) = 1%nat
     ∧ written (trace (final (run w))) = []
     ∧ file (final (run w)) = state_file w).
Proof.
  destruct (fetch_fails w) eqn:Hfail.
  { right. destruct (run_failed Hfail) as (k & msg & Hk & ->).
    destruct (fetch_failed_trace k msg Hk) as (Hw & _).
    split; [reflexivity | split; [exact Hw | reflexivity]]. }
  destruct (state_file w) as [old_state|] eqn:Hfile;
    [|left; by rewrite (run_fetched_first Hfail Hfile)].
  destruct (decide (detect_changes old_state (new_snapshot w) = [])) as [Hnil|Hne];
    [left; by rewrite (run_fetched_no_changes _ Hfail Hfile Hnil)|].
  destruct (send_telegram w (format_alert (detect_changes old_state (new_snapshot w)))
              (mkSys (Some old_state) fetch_gets)) as [σ' r] eqn:Hsend.
  rewrite (run_fetched_changes _ _ _ Hfail Hfile Hne Hsend).
  destruct (send_telegram_trace w _ _ _ _ Hsend) as (Hf & t & Ht & Hw & _).
  cbn [file trace] in Ht, Hf. unfold written in *.
  destruct r as [e|sent].
  - right. destruct (send_telegram_inv w _ _ _ _ Hsend) as (_ & _ & Hraise).
    destruct (Hraise e eq_refl) as (msg & _ & ->).
    split; [reflexivity|]. cbn [final trace file exit_code].
    split; [by rewrite Ht, omap_app, Hw | done].
  - left. split; [reflexivity|]. split; [done|]. cbn [final trace file].
    split; [by rewrite Ht, !omap_app, Hw | done].
Qed.

End RunMore.

Section RunTrace.

Variable w : World.

(** The events of a run: a prefix of the three GET requests, then events
    that hold no GET and at most one POST. *)
Lemma run_trace :
  ∃ k t, (1 ≤ k ≤ 3)%nat
    ∧ trace (final (run w)) = take k fetch_gets ++ t
    ∧ filter is_get t = []
    ∧ (length (filter is_post t) ≤ 1)%nat
    ∧ (filter is_post t ≠ [] →
       fetch_fails w = false
       ∧ truthy (environ w !! lit "TELEGRAM_BOT_TOKEN") = true
       ∧ truthy (environ w !! lit "TELEGRAM_CHAT_ID") = true
       ∧ ∃ old_state, state_file w = Some old_state
           ∧ detect_changes old_state (new_snapshot w) ≠ []).
Proof.
  destruct (fetch_fails w) eqn:Hfail.
  { destruct (run_failed w Hfail) as (k & msg & Hk & ->).
    exists k, [fetch_failed_line msg]. split; [exact Hk|].
    split; [reflexivity|]. split; [reflexivity|]. split; [vm_compute; lia|].
    intros H. by destruct H. }
  exists 3%nat. change (take 3 fetch_gets) with fetch_gets.
  destruct (state_file w) as [old_state|] eqn:Hfile.
  2: { rewrite (run_fetched_first w Hfail Hfile). eexists. split; [lia|].
       split; [reflexivity|]. split; [reflexivity|]. split; [vm_compute; lia|].
       intros H. by destruct H. }
  destruct (decide (detect_changes old_state (new_snapshot w) = [])) as [Hnil|Hne].
  { rewrite (run_fetched_no_changes w _ Hfail Hfile Hnil). eexists. split; [lia|].
    split; [reflexivity|]. split; [reflexivity|]. split; [vm_compute; lia|].
    intros H. by destruct H. }
  destruct (send_telegram w (format_alert (detect_changes old_state (new_snapshot w)))
              (mkSys (Some old_state) fetch_gets)) as [σ' r] eqn:Hsend.
  rewrite (run_fetched_changes w _ _ _ Hfail Hfile Hne Hsend).
  destruct (send_telegram_trace w _ _ _ _ Hsend)
    as (_ & t & Ht & _ & Hg & Hle & _ & Hcred).
  cbn [file trace] in Ht.
  destruct r as [e|sent]; cbn [final trace].
  - exists t. split; [lia|]. split; [exact Ht|]. split; [exact Hg|].
    split; [exact Hle|]. intros Hpost. destruct (Hcred Hpost) as [Htok Hchat].
    eauto 10.
  - exists (t ++ [Print (detected_line (detect_changes old_state (new_snapshot w)) sent);
                  WriteState (new_snapshot w)]).
    rewrite Ht, !filter_app, Hg, <- app_assoc.
    assert (filter is_post [Print (detected_line
              (detect_changes old_state (new_snapshot w)) sent);
              WriteState (new_snapshot w)] = []) as -> by reflexivity.
    assert (filter is_get [Print (detected_line
              (detect_changes old_state (new_snapshot w)) sent);
              WriteState (new_snapshot w)] = []) as -> by reflexivity.
    rewrite !app_nil_r. split; [lia|]. split; [reflexivity|].
    split; [reflexivity|]. split; [exact Hle|].
    intros Hpost. destruct (Hcred Hpost) as [Htok Hchat]. eauto 10.
Qed.

End RunTrace.

(** X14. When the fetch fails (a network or parse error on one of the
    three requests, or a status from 400 to 599 on the detail request), the
    run prints one line, [API fetch failed:] and the message of the
    exception, sends no POST, writes no snapshot, leaves the file as it
    was and exits with 1. *)
Theorem run_fetch_failure (w : World) :
  fetch_fails w = true →
  exit_code (run w) = 1%nat
  ∧ file (final (run w)) = state_file w
  ∧ written (trace (final (run w))) = []
  ∧ filter is_post (trace (final (run w))) = []
  ∧ ∃ msg, printed (trace (final (run w))) = [lit "API fetch failed: " ++ msg].
Proof.
  intros Hfail. destruct (run_failed w Hfail) as (k & msg & Hk & ->).
  destruct (fetch_failed_trace k msg Hk) as (Hw & Hp & _ & Hpr).
  split; [reflexivity|]. split; [reflexivity|]. split; [exact Hw|].
  split; [exact Hp|]. exists msg. exact Hpr.
Qed.

Lemma run_fetch_failure_witness :
  exit_code (run w_models_down) = 1%nat
  ∧ file (final (run w_models_down)) = Some s_old
  ∧ printed (trace (final (run w_models_down)))
    = [lit "API fetch failed: " ++ lit "Read timed out"].
Proof.
  destruct (run_fetch_failure w_models_down) as (He & Hf & _ & _ & _);
    [reflexivity|].
  split; [exact He|]. split; [exact Hf|]. vm_compute. reflexivity.
Defined.

(** X15. Every run ends in one of two ways: it exits with 0, having
    fetched without failure and written the new snapshot exactly once, so
    that the file holds it; or it exits with 1, having written nothing and
    left the file as it was. *)
Theorem run_saves_or_fails (w : World) :
  (exit_code (run w) = 0%nat ∧ fetch_fails w = false
   ∧ written (trace (final (run w))) = [new_snapshot w]
   ∧ file (final (run w)) = Some (new_snapshot w))
  ∨ (exit_code (run w) = 1%nat
     ∧ written (trace (final (run w))) = []
     ∧ file (final (run w)) = state_file w).
Proof. apply run_outcomes. Qed.

(** X16. A run sends at most one POST, and it sends one only when the
    fetch did not fail, a snapshot was on disk, [detect_changes] found a
    change against it, and both credentials are set and not empty. *)
Theorem run_post_only_on_change (w : World) :
  (length (filter is_post (trace (final (run w)))) ≤ 1)%nat
  ∧ (filter is_post (trace (final (run w))) ≠ [] →
     fetch_fails w = false
     ∧ truthy (environ w !! lit "TELEGRAM_BOT_TOKEN") = true
     ∧ truthy (environ w !! lit "TELEGRAM_CHAT_ID") = true
     ∧ ∃ old_state, state_file w = Some old_state
         ∧ detect_changes old_state (new_snapshot w) ≠ []).
Proof.
  destruct (run_trace w) as (k & t & Hk & -> & _ & Hle & Hpost).
  assert (filter is_post (take k fetch_gets) = []) as Hnone
    by (destruct k as [|[|[|[|k]]]]; try lia; reflexivity).
  rewrite filter_app, Hnone. done.
Qed.

(** X17. A run sends its GET requests in a fixed order and never twice:
    the GET requests of a run are the first one, two or three of the
    listing of spaces, the listing of models and the detail of the watched
    space. *)
Theorem run_gets_prefix (w : World) :
  ∃ k, (1 ≤ k ≤ 3)%nat
    ∧ filter is_get (trace (final (run w))) = take k fetch_gets.
Proof.
  destruct (run_trace w) as (k & t & Hk & -> & Hg & _).
  exists k. split; [done|]. rewrite filter_app, Hg, app_nil_r.
  destruct k as [|[|[|[|k]]]]; try lia; reflexivity.
Qed.

(** X18. A run that follows a run that exited with 0, starts from the
    file that run left and gets the same three answers, reports no change:
    whatever its clock, its environment and the state of the messaging
    endpoint, it prints [No changes detected.], sends no POST, writes the
    snapshot anew and exits with 0. *)
Theorem second_run_quiet (w w' : World) :
  exit_code (run w) = 0%nat →
  state_file w' = file (final (run w)) →
  spaces_api w' = spaces_api w →
  models_api w' = models_api w →
  space_api w' = space_api w →
  run w' = mkOutcome 0 (inr tt)
             (mkSys (Some (new_snapshot w'))
                (fetch_gets ++ [Print (lit "No changes detected.");
                                WriteState (new_snapshot w')])).
Proof.
  intros Hexit Hfile Hs Hm Hd.
  destruct (run_outcomes w) as [(_ & Hok & _ & Hf)|(Hone & _)];
    [|rewrite Hexit in Hone; discriminate].
  rewrite Hf in Hfile.
  assert (fetch_fails w' = false) as Hok'
    by (unfold fetch_fails in *; by rewrite Hs, Hm, Hd).
  apply (run_fetched_no_changes w' _ Hok' Hfile).
  apply detect_changes_unchanged; unfold new_snapshot, get_sha, fetched_detail; cbn;
    by rewrite ?Hs, ?Hm, ?Hd.
Qed.

Lemma second_run_quiet_witness :
  utcnow w_second ≠ utcnow w_first
  ∧ run w_second = mkOutcome 0 (inr tt)
      (mkSys (Some (new_snapshot w_second))
         (fetch_gets ++ [Print (lit "No changes detected.");
                         WriteState (new_snapshot w_second)])).
Proof.
  split; [by vm_compute|].
  apply (second_run_quiet w_first w_second); vm_compute; reflexivity.
Defined.

(** X19. When a change is detected and a credential is absent or empty,
    the run prints the alert behind the not-configured notice, then the
    summary with [Telegram sent: False], sends no POST, writes the new
    snapshot and exits with 0. *)
Theorem run_unconfigured (w : World) (old_state : Snapshot) :
  fetch_fails w = false → state_file w = Some old_state →
  detect_changes old_state (new_snapshot w) ≠ [] →
  truthy (environ w !! lit "TELEGRAM_BOT_TOKEN") = false
  ∨ truthy (environ w !! lit "TELEGRAM_CHAT_ID") = false →
  let changes := detect_changes old_state (new_snapshot w) in
  run w = mkOutcome 0 (inr tt)
            (mkSys (Some (new_snapshot w))
               (fetch_gets ++
                [ Print (lit "Telegram not configured. Would have sent:" ++ nl
                           ++ format_alert changes);
                  Print (lit "Detected " ++ of_nat (length changes)
                           ++ lit " change(s). Telegram sent: False");
                  WriteState (new_snapshot w) ])).
Proof.
  intros Hok Hfile Hne Hcred changes.
  rewrite (run_fetched_changes w old_state _ _ Hok Hfile Hne
             (send_telegram_not_configured w _ _ Hcred)).
  cbn [trace]. rewrite <- ?app_assoc. reflexivity.
Qed.

Lemma run_unconfigured_witness :
  printed (trace (final (run w_unconfigured)))
  = [ lit "Telegram not configured. Would have sent:" ++ nl
        ++ format_alert (detect_changes s_old (new_snapshot w_unconfigured));
      lit "Detected 3 change(s). Telegram sent: False" ]
  ∧ file (final (run w_unconfigured)) = Some (new_snapshot w_unconfigured).
Proof.
  rewrite (run_unconfigured w_unconfigured s_old);
    [split; vm_compute; reflexivity | reflexivity | reflexivity
    | vm_compute; discriminate | left; reflexivity].
Defined.

(** X20. When a change is detected, both credentials are set and not
    empty, and the POST is answered with a status outside 400-599, the run
    sends the alert in one POST, prints the summary with
    [Telegram sent: True], writes the new snapshot and exits with 0. *)
Theorem run_delivered (w : World) (old_state : Snapshot) (token chat_id : str)
    (resp : Response unit) :
  fetch_fails w = false → state_file w = Some old_state →
  detect_changes old_state (new_snapshot w) ≠ [] →
  environ w !! lit "TELEGRAM_BOT_TOKEN" = Some token → token ≠ [] →
  environ w !! lit "TELEGRAM_CHAT_ID" = Some chat_id → chat_id ≠ [] →
  telegram_api w = Replies resp → resp_ok resp = true →
  let changes := detect_changes old_state (new_snapshot w) in
  run w = mkOutcome 0 (inr tt)
            (mkSys (Some (new_snapshot w))
               (fetch_gets ++
                [ post_event token chat_id (format_alert changes);
                  Print (lit "Detected " ++ of_nat (length changes)
                           ++ lit " change(s). Telegram sent: True");
                  WriteState (new_snapshot w) ])).
Proof.
  intros Hok Hfile Hne Ht Hte Hc Hce Hr Hrok changes.
  assert (send_telegram w (format_alert changes) (mkSys (Some old_state) fetch_gets)
          = (mkSys (Some old_state)
               (fetch_gets ++ [post_event token chat_id (format_alert changes)]),
             inr true)) as Hsend.
  { rewrite (send_telegram_configured w _ _ _ _ Ht Hte Hc Hce), Hr. cbn.
    by rewrite Hrok. }
  rewrite (run_fetched_changes w old_state _ _ Hok Hfile Hne Hsend).
  cbn [trace]. rewrite <- ?app_assoc. reflexivity.
Qed.

Lemma run_delivered_witness :
  exit_code (run w_delivered) = 0%nat
  ∧ printed (trace (final (run w_delivered)))
    = [lit "Detected 3 change(s). Telegram sent: True"]
  ∧ file (final (run w_delivered)) = Some s_new.
Proof.
  rewrite (run_delivered w_delivered s_old (lit "123:abc") (lit "42") (answer tt));
    [ split; [reflexivity | split; vm_compute; reflexivity]
    | reflexivity | reflexivity | vm_compute; discriminate
    | reflexivity | discriminate | reflexivity | discriminate
    | reflexivity | reflexivity ].
Defined.

(** X21. When a change is detected, both credentials are set and not
    empty, and the POST is answered with a status from 400 to 599, the
    failure is not fatal: the run prints the status and body of the answer,
    then the summary with [Telegram sent: False], writes the new snapshot
    and exits with 0. *)
Theorem run_delivery_rejected (w : World) (old_state : Snapshot) (token chat_id : str)
    (resp : Response unit) :
  fetch_fails w = false → state_file w = Some old_state →
  detect_changes old_state (new_snapshot w) ≠ [] →
  environ w !! lit "TELEGRAM_BOT_TOKEN" = Some token → token ≠ [] →
  environ w !! lit "TELEGRAM_CHAT_ID" = Some chat_id → chat_id ≠ [] →
  telegram_api w = Replies resp → resp_ok resp = false →
  let changes := detect_changes old_state (new_snapshot w) in
  run w = mkOutcome 0 (inr tt)
            (mkSys (Some (new_snapshot w))
               (fetch_gets ++
                [ post_event token chat_id (format_alert changes);
                  Print (lit "Telegram API error: " ++ of_nat (status_code resp)
                           ++ lit " " ++ text resp);
                  Print (lit "Detected " ++ of_nat (length changes)
                           ++ lit " change(s). Telegram sent: False");
                  WriteState (new_snapshot w) ])).
Proof.
  intros Hok Hfile Hne Ht Hte Hc Hce Hr Hrok changes.
  assert (send_telegram w (format_alert changes) (mkSys (Some old_state) fetch_gets)
          = (mkSys (Some old_state)
               (fetch_gets ++ [post_event token chat_id (format_alert changes);
                  Print (lit "Telegram API error: " ++ of_nat (status_code resp)
                           ++ lit " " ++ text resp)]),
             inr false)) as Hsend.
  { rewrite (send_telegram_configured w _ _ _ _ Ht Hte Hc Hce), Hr. cbn.
    by rewrite Hrok. }
  rewrite (run_fetched_changes w old_state _ _ Hok Hfile Hne Hsend).
  cbn [trace]. rewrite <- ?app_assoc. reflexivity.
Qed.

Lemma run_delivery_rejected_witness :
  exit_code (run w_post_403) = 0%nat
  ∧ printed (trace (final (run w_post_403)))
    = [ lit "Telegram API error: 403 bot was blocked";
        lit "Detected 3 change(s). Telegram sent: False" ]
  ∧ file (final (run w_post_403)) = Some s_new.
Proof.
  rewrite (run_delivery_rejected w_post_403 s_old (lit "123:abc") (lit "42")
             (mkResponse 403%nat (lit "Forbidden")
                (lit "https://api.telegram.org/bot123:abc/sendMessage")
                (lit "bot was blocked") (inr tt)));
    [ split; [reflexivity | split; vm_compute; reflexivity]
    | reflexivity | reflexivity | vm_compute; discriminate
    | reflexivity | discriminate | reflexivity | discriminate
    | reflexivity | reflexivity ].
Defined.

(** X22. When a change is detected, both credentials are set and not
    empty, and the POST fails in transport, the exception of the request
    ends the run: after the POST the run prints nothing, writes no
    snapshot, leaves the file as it was and exits with 1. *)
Theorem run_delivery_raises (w : World) (old_state : Snapshot) (token chat_id msg : str) :
  fetch_fails w = false → state_file w = Some old_state →
  detect_changes old_state (new_snapshot w) ≠ [] →
  environ w !! lit "TELEGRAM_BOT_TOKEN" = Some token → token ≠ [] →
  environ w !! lit "TELEGRAM_CHAT_ID" = Some chat_id → chat_id ≠ [] →
  telegram_api w = Fails msg →
  let changes := detect_changes old_state (new_snapshot w) in
  run w = mkOutcome 1 (inl (RequestException msg))
            (mkSys (Some old_state)
               (fetch_gets ++ [post_event token chat_id (format_alert changes)])).
Proof.
  intros Hok Hfile Hne Ht Hte Hc Hce Hr changes.
  assert (send_telegram w (format_alert changes) (mkSys (Some old_state) fetch_gets)
          = (mkSys (Some old_state)
               (fetch_gets ++ [post_event token chat_id (format_alert changes)]),
             inl (RequestException msg))) as Hsend.
  { by rewrite (send_telegram_configured w _ _ _ _ Ht Hte Hc Hce), Hr. }
  by rewrite (run_fetched_changes w old_state _ _ Hok Hfile Hne Hsend).
Qed.

Lemma run_delivery_raises_witness :
  exit_code (run w_post_down) = 1%nat
  ∧ printed (trace (final (run w_post_down))) = []
  ∧ file (final (run w_post_down)) = Some s_old.
Proof.
  rewrite (run_delivery_raises w_post_down s_old (lit "123:abc") (lit "42")
             (lit "Connection refused"));
    [ split; [reflexivity | split; vm_compute; reflexivity]
    | reflexivity | reflexivity | vm_compute; discriminate
    | reflexivity | discriminate | reflexivity | discriminate
    | reflexivity ].
Defined.
